(** * AeonSage Colab environment checker: model and properties

    A shallow embedding of [colab/verify_environment.py].  The script is
    sequential glue over the interpreter's environment (subprocesses, the
    file system, the working directory, standard output); the embedding
    passes the object's fields and the process state explicitly and reads
    everything external from an oracle, the [world]. *)

From Stdlib Require Import String Ascii DecimalString.
From Stdlib Require Import NArith ZArith QArith Bool Lia List.
Import ListNotations.
Close Scope Q_scope.

(** ** Python strings *)

(** A Python [str] is a sequence of Unicode code points. *)
Module PyStr.

Definition pystr := list N.

Definition eqb (a b : pystr) : bool :=
  if list_eq_dec N.eq_dec a b then true else false.

(** Literals are written as UTF-8 text and decoded to code points. *)
Fixpoint utf8_decode (bs : list N) : pystr :=
  match bs with
  | [] => []
  | b0 :: r0 =>
      if (b0 <? 0x80)%N then b0 :: utf8_decode r0
      else match r0 with
      | [] => []
      | b1 :: r1 =>
          if (b0 <? 0xE0)%N
          then ((b0 - 0xC0) * 64 + (b1 - 0x80))%N :: utf8_decode r1
          else match r1 with
          | [] => []
          | b2 :: r2 =>
              if (b0 <? 0xF0)%N
              then ((b0 - 0xE0) * 4096 + (b1 - 0x80) * 64 + (b2 - 0x80))%N
                     :: utf8_decode r2
              else match r2 with
              | [] => []
              | b3 :: r3 =>
                  ((b0 - 0xF0) * 262144 + (b1 - 0x80) * 4096
                   + (b2 - 0x80) * 64 + (b3 - 0x80))%N :: utf8_decode r3
              end
          end
      end
  end.

Definition u (s : string) : pystr :=
  utf8_decode (map N_of_ascii (list_ascii_of_string s)).
Arguments u s%_string.

(** [str.isspace] on one code point (CPython's [_PyUnicode_IsWhitespace]). *)
Definition is_space (c : N) : bool :=
  ((0x09 <=? c) && (c <=? 0x0D) || (0x1C <=? c) && (c <=? 0x20)
   || (c =? 0x85) || (c =? 0xA0) || (c =? 0x1680)
   || (0x2000 <=? c) && (c <=? 0x200A)
   || (c =? 0x2028) || (c =? 0x2029) || (c =? 0x202F) || (c =? 0x205F)
   || (c =? 0x3000))%N.

Fixpoint lstrip (s : pystr) : pystr :=
  match s with
  | [] => []
  | c :: r => if is_space c then lstrip r else s
  end.

Definition rstrip (s : pystr) : pystr := rev (lstrip (rev s)).

(** [s.strip()]: whitespace is removed at both ends. *)
Definition strip (s : pystr) : pystr := rstrip (lstrip s).

(** [s.split(sep)] for a one-character separator: every occurrence cuts,
    empty pieces are kept. *)
Fixpoint split_on (sep : N) (s : pystr) : list pystr :=
  match s with
  | [] => [[]]
  | c :: r =>
      if (c =? sep)%N then [] :: split_on sep r
      else match split_on sep r with
           | [] => [[c]]
           | piece :: pieces => (c :: piece) :: pieces
           end
  end.

(** [s.split()]: cut at runs of whitespace, no empty pieces.  [cur] is the
    piece being read, reversed. *)
Fixpoint words (cur : pystr) (s : pystr) : list pystr :=
  match s with
  | [] => match cur with [] => [] | _ => [rev cur] end
  | c :: r =>
      if is_space c
      then match cur with
           | [] => words [] r
           | _ => rev cur :: words [] r
           end
      else words (c :: cur) r
  end.

Definition split (s : pystr) : list pystr := words [] s.

(** [str(n)] for a non-negative integer. *)
Definition of_nat (n : nat) : pystr := u (NilZero.string_of_uint (Nat.to_uint n)).

(** [format(s, str(width))] for a string: left-aligned, padded with spaces. *)
Definition ljust (width : nat) (s : pystr) : pystr :=
  s ++ repeat 0x20%N (width - length s).

Definition LF : N := 0x0A%N.

End PyStr.

Import PyStr.

(** ** Exceptions, process state, the world *)

(** The exception classes that occur; all are subclasses of [Exception].
    Interrupts of the interpreter ([KeyboardInterrupt], [SystemExit]),
    which [except Exception] does not catch, are not part of the model.
    An exception is its class and its [str(e)]. *)
Inductive exn_class : Type :=
| TimeoutExpired
| ZeroDivisionError
| OtherException.

Record exn : Type := mkExn {
  class_of : exn_class;
  str_exn : pystr
}.

Inductive res (A : Type) : Type :=
| Ok (a : A)
| Raise (e : exn).
Arguments Ok {A} a.
Arguments Raise {A} e.

(** An absolute directory, as its components below the root. *)
Definition dir := list pystr.

(** A path argument of [os.chdir] / [os.path.exists]. *)
Inductive pathname : Type :=
| Rel (components : list pystr)
| Abs (components : list pystr).

Definition resolve (cwd : dir) (p : pathname) : dir :=
  match p with
  | Rel cs => cwd ++ cs
  | Abs cs => cs
  end.

(** One written line of standard output.  The success-rate line carries
    the rate itself: its [.1f] rendering is not modelled. *)
Inductive line : Type :=
| Text (s : pystr)
| RateLine (percent : Q).

(** A recorded check: the tuple [(test_name, passed, message)]. *)
Definition CheckResult : Type := pystr * bool * pystr.

(** What the script reads from outside.  [spawn d cmd t] is what
    [subprocess.run(cmd, capture_output=True, text=True, timeout=t)] does
    when called in directory [d]: it returns [(returncode, stdout)] or
    raises.  [stdout_write n] is the description of the error raised by the
    [n]-th write to standard output, if it fails.  [exit_flush_fails] tells
    whether the final flush of standard output, when the interpreter exits,
    fails.  The three [platform] and [sys] values are what the library calls
    return; helper processes the library may start to compute them are its
    own business.  The world does not change during a run. *)
Record world : Type := mkWorld {
  python_version : pystr;            (* sys.version.split()[0] *)
  platform_platform : pystr;         (* platform.platform() *)
  platform_architecture : pystr;     (* platform.architecture()[0] *)
  environ : pystr -> bool;           (* name in os.environ *)
  path_exists : dir -> bool;
  path_isdir : dir -> bool;
  spawn : dir -> list pystr -> option N -> res (Z * pystr);
  stdout_write : nat -> option pystr;
  initial_cwd : dir;
  exit_flush_fails : bool
}.

(** The checker object's fields and the process state.  [invoked] lists
    the script's own calls of [subprocess.run], each with the directory it
    was made in. *)
Record state : Type := mkState {
  results : list CheckResult;
  passed : nat;
  failed : nat;
  cwd : dir;
  stdout : list line;
  invoked : list (dir * list pystr)
}.

Definition set_results (f : list CheckResult -> list CheckResult) (s : state) :=
  mkState (f (results s)) (passed s) (failed s) (cwd s) (stdout s) (invoked s).
Definition set_passed (f : nat -> nat) (s : state) :=
  mkState (results s) (f (passed s)) (failed s) (cwd s) (stdout s) (invoked s).
Definition set_failed (f : nat -> nat) (s : state) :=
  mkState (results s) (passed s) (f (failed s)) (cwd s) (stdout s) (invoked s).
Definition set_cwd (d : dir) (s : state) :=
  mkState (results s) (passed s) (failed s) d (stdout s) (invoked s).
Definition set_stdout (f : list line -> list line) (s : state) :=
  mkState (results s) (passed s) (failed s) (cwd s) (f (stdout s)) (invoked s).
Definition set_invoked (f : list (dir * list pystr) -> list (dir * list pystr))
    (s : state) :=
  mkState (results s) (passed s) (failed s) (cwd s) (stdout s) (f (invoked s)).

(** ** A state and exception monad *)

Definition M (A : Type) : Type := state -> res A * state.

Definition ret {A} (a : A) : M A := fun s => (Ok a, s).

Definition bind {A B} (m : M A) (k : A -> M B) : M B :=
  fun s => match m s with
           | (Ok a, s') => k a s'
           | (Raise e, s') => (Raise e, s')
           end.

Definition raise {A} (e : exn) : M A := fun s => (Raise e, s).

Definition get {A} (f : state -> A) : M A := fun s => (Ok (f s), s).

Definition modify (f : state -> state) : M unit := fun s => (Ok tt, f s).

(** [try: body except e: handler e] *)
Definition try_except {A} (body : M A) (handler : exn -> M A) : M A :=
  fun s => match body s with
           | (Ok a, s') => (Ok a, s')
           | (Raise e, s') => handler e s'
           end.

(** [try: body finally: fin].  An exception of [fin] replaces the body's
    outcome. *)
Definition try_finally {A} (body : M A) (fin : M unit) : M A :=
  fun s => match body s with
           | (r, s') =>
               match fin s' with
               | (Ok _, s'') => (r, s'')
               | (Raise e, s'') => (Raise e, s'')
               end
           end.

(** [for x in xs: body x] *)
Fixpoint for_each {A} (xs : list A) (body : A -> M unit) : M unit :=
  match xs with
  | [] => ret tt
  | x :: xs' => bind (body x) (fun _ => for_each xs' body)
  end.

Declare Scope py_scope.
Delimit Scope py_scope with py.
Notation "x <- m ;; k" := (bind m (fun x => k))
  (at level 61, m at next level, right associativity) : py_scope.
Notation "m ;; k" := (bind m (fun _ => k))
  (at level 61, right associativity) : py_scope.
Open Scope py_scope.

(** ** The checker *)

Definition df_command : list pystr := [u "df"; u "-h"; u "/"].

Section Checker.

Variable w : world.

(** [print(text)]: one write to standard output. *)
Definition print (l : line) : M unit :=
  fun s => match stdout_write w (length (stdout s)) with
           | Some desc => (Raise (mkExn OtherException desc), s)
           | None => (Ok tt, set_stdout (fun out => out ++ [l]) s)
           end.

Definition subprocess_run (command : list pystr) (timeout : option N)
  : M (Z * pystr) :=
  fun s =>
    let s' := set_invoked (fun l => l ++ [(cwd s, command)]) s in
    match spawn w (cwd s) command timeout with
    | Ok completed => (Ok completed, s')
    | Raise e => (Raise e, s')
    end.

Definition os_path_exists (p : pathname) : M bool :=
  get (fun s => path_exists w (resolve (cwd s) p)).

Definition os_path_isdir (p : pathname) : M bool :=
  get (fun s => path_isdir w (resolve (cwd s) p)).

Definition os_getcwd : M dir := get cwd.

(** [os.chdir(p)].  The script only enters a directory it has just seen
    and goes back to the one it started from; both calls succeed. *)
Definition os_chdir (p : pathname) : M unit :=
  modify (fun s => set_cwd (resolve (cwd s) p) s).

Definition log_result (test_name : pystr) (passed : bool) (message : pystr)
  : M unit :=
  let status := if passed then u "✓" else u "✗" in
  modify (set_results (fun r => r ++ [(test_name, passed, message)])) ;;
  (if passed then modify (set_passed S) else modify (set_failed S)) ;;
  print (Text (status ++ u " " ++ test_name ++ u ": " ++ message)).

Definition run_command (command : list pystr) : M (bool * pystr) :=
  try_except
    (result <- subprocess_run command (Some 30%N) ;;
     ret ((fst result =? 0)%Z, strip (snd result)))
    (fun e =>
       match class_of e with
       | TimeoutExpired => ret (false, u "命令执行超时")
       | _ => ret (false, u "执行错误: " ++ str_exn e)
       end).

(** The disk-space block of [check_system_info]: a [try] with a bare
    [except]. *)
Definition check_disk_space : M unit :=
  try_except
    (result <- subprocess_run df_command None ;;
     if (fst result =? 0)%Z then
       let lines := split_on LF (strip (snd result)) in
       if 1 <? length lines then
         let disk_info := split (nth 1 lines []) in
         if 3 <? length disk_info then
           let used := nth 2 disk_info [] in
           let available := nth 3 disk_info [] in
           log_result (u "磁盘空间") true
                      (u "已用: " ++ used ++ u ", 可用: " ++ available)
         else ret tt
       else ret tt
     else ret tt)
    (fun _ => log_result (u "磁盘空间") false (u "无法获取磁盘信息")).

Definition check_system_info : M unit :=
  print (Text (u "=== 系统信息检查 ===")) ;;
  log_result (u "Python 版本") true (python_version w) ;;
  log_result (u "操作系统") true (platform_platform w) ;;
  log_result (u "系统架构") true (platform_architecture w) ;;
  let gpu_available := environ w (u "COLAB_GPU") in
  let gpu_status := if gpu_available then u "可用" else u "不可用" in
  log_result (u "GPU 支持") gpu_available gpu_status ;;
  check_disk_space.

(** [<tool> --version] through [run_command], then one result. *)
Definition check_tool (test_name : pystr) (command : list pystr) : M unit :=
  r <- run_command command ;;
  let '(success, version) := r in
  log_result test_name success (if success then version else u "未安装").

Definition check_node_environment : M unit :=
  print (Text (LF :: u "=== Node.js 环境检查 ===")) ;;
  check_tool (u "Node.js 安装") [u "node"; u "--version"] ;;
  check_tool (u "npm 安装") [u "npm"; u "--version"] ;;
  check_tool (u "pnpm 安装") [u "pnpm"; u "--version"] ;;
  check_tool (u "Git 安装") [u "git"; u "--version"].

(** The body of the [try] in [check_aeonsage_installation]. *)
Definition check_project_contents : M unit :=
  package_exists <- os_path_exists (Rel [u "package.json"]) ;;
  log_result (u "package.json") package_exists
             (if package_exists then u "存在" else u "缺失") ;;
  if package_exists then
    node_modules_exists <- os_path_exists (Rel [u "node_modules"]) ;;
    log_result (u "依赖安装") node_modules_exists
               (if node_modules_exists then u "已完成"
                else u "需要运行 pnpm install") ;;
    dist_exists <- os_path_exists (Rel [u "dist"]) ;;
    log_result (u "构建输出") dist_exists
               (if dist_exists then u "已构建" else u "需要运行 pnpm build") ;;
    if dist_exists then
      r <- run_command [u "pnpm"; u "aeonsage"; u "--version"] ;;
      let '(success, version) := r in
      log_result (u "CLI 工具") success
                 (if success then version else u "无法执行") ;;
      r <- run_command [u "pnpm"; u "aeonsage"; u "--help"] ;;
      let '(success, _) := r in
      log_result (u "CLI 帮助") success
                 (if success then u "可用" else u "不可用")
    else ret tt
  else ret tt.

Definition check_aeonsage_installation : M unit :=
  print (Text (LF :: u "=== AeonSage 安装检查 ===")) ;;
  e <- os_path_exists (Rel [u "aeonsage"]) ;;
  d <- os_path_isdir (Rel [u "aeonsage"]) ;;
  let project_exists := e && d in
  log_result (u "项目目录") project_exists
             (if project_exists then u "aeonsage" else u "未找到") ;;
  if negb project_exists then ret tt
  else
    original_dir <- os_getcwd ;;
    os_chdir (Rel [u "aeonsage"]) ;;
    try_finally check_project_contents (os_chdir (Abs original_dir)).

(** A network probe: only the exit status is used. *)
Definition check_probe (test_name : pystr) (command : list pystr)
    (good bad : pystr) : M unit :=
  r <- run_command command ;;
  let '(success, _) := r in
  log_result test_name success (if success then good else bad).

Definition check_network_connectivity : M unit :=
  print (Text (LF :: u "=== 网络连接检查 ===")) ;;
  check_probe (u "互联网连接") [u "ping"; u "-c"; u "1"; u "8.8.8.8"]
              (u "正常") (u "异常") ;;
  check_probe (u "GitHub 连接")
              [u "curl"; u "-s"; u "https://github.com"; u "--max-time"; u "10"]
              (u "可访问") (u "无法访问") ;;
  check_probe (u "npm Registry") [u "npm"; u "ping"]
              (u "响应正常") (u "无响应").

(** [passed / (passed + failed) * 100]: true division of two integers,
    which raises on a zero divisor.  The value is kept as an exact
    rational. *)
Definition success_rate (passed failed : nat) : M Q :=
  if Nat.eqb (passed + failed) 0
  then raise (mkExn ZeroDivisionError (u "division by zero"))
  else ret (inject_Z (Z.of_nat passed) / inject_Z (Z.of_nat (passed + failed))
            * inject_Z 100)%Q.

Definition critical_names : list pystr :=
  [u "Node.js 安装"; u "pnpm 安装"; u "项目目录"; u "依赖安装"; u "构建输出"].

(** [x in names] *)
Definition py_in (x : pystr) (names : list pystr) : bool :=
  existsb (eqb x) names.

(** [[result[1] for result in results if result[0] in [...]]] *)
Definition critical_checks (rs : list CheckResult) : list bool :=
  map (fun result => snd (fst result))
      (filter (fun result => py_in (fst (fst result)) critical_names) rs).

Definition all (bs : list bool) : bool := forallb (fun b => b) bs.
Definition any (bs : list bool) : bool := existsb (fun b => b) bs.

Definition msg_ready : pystr := u "  ✅ 环境配置完整，可以开始使用 AeonSage".
Definition msg_partial : pystr := u "  ⚠️  环境部分配置，需要修复".
Definition msg_not_configured : pystr := u "  ❌ 环境未配置，请运行安装脚本".

Definition print_detail (result : CheckResult) : M unit :=
  let '(test_name, passed, message) := result in
  let status := if passed then u "PASS" else u "FAIL" in
  print (Text (u "  " ++ ljust 4 status ++ u " | " ++ ljust 20 test_name
               ++ u " | " ++ message)).

(** [run_comprehensive_test], first half: the banner and the four groups. *)
Definition run_all_checks : M unit :=
  print (Text (u "🤖 AeonSage Colab 环境验证")) ;;
  print (Text (repeat 0x3D%N 50)) ;;
  check_system_info ;;
  check_node_environment ;;
  check_aeonsage_installation ;;
  check_network_connectivity.

(** [run_comprehensive_test], second half: totals, success rate, detail
    table and the verdict, which is the returned value. *)
Definition print_summary : M bool :=
  print (Text (LF :: repeat 0x3D%N 50)) ;;
  p <- get passed ;;
  f <- get failed ;;
  print (Text (u "📊 测试总结: " ++ of_nat p ++ u " 通过, " ++ of_nat f
               ++ u " 失败")) ;;
  rate <- success_rate p f ;;
  print (RateLine rate) ;;
  print (Text (LF :: u "📋 详细结果:")) ;;
  rs <- get results ;;
  for_each rs print_detail ;;
  print (Text (LF :: u "🎯 环境状态:")) ;;
  rs <- get results ;;
  let critical := critical_checks rs in
  if all critical then
    print (Text msg_ready) ;; ret true
  else if any critical then
    print (Text msg_partial) ;; ret false
  else
    print (Text msg_not_configured) ;; ret false.

Definition run_comprehensive_test : M bool :=
  run_all_checks ;; print_summary.

Definition main : M Z :=
  success <- run_comprehensive_test ;;
  (if negb success then
     print (Text (LF :: u "💡 建议修复步骤:")) ;;
     print (Text (u "1. 运行 !bash colab/quick_setup.sh")) ;;
     print (Text (u "2. 或在 Colab 中逐个执行 setup_colab.ipynb 的单元格")) ;;
     print (Text (u "3. 检查网络连接和磁盘空间"))
   else ret tt) ;;
  ret (if success then 0 else 1)%Z.

(** [ColabEnvironmentChecker()] in a fresh process. *)
Definition init : state :=
  mkState [] 0 0 (initial_cwd w) [] [].

(** [sys.exit(main())]: the interpreter exits with status 120 when its
    final flush of standard output fails; otherwise with the status [main]
    returns, or with 1 after an uncaught exception. *)
Definition exit_status : Z :=
  if exit_flush_fails w then 120%Z
  else match fst (main init) with
       | Ok status => status
       | Raise _ => 1%Z
       end.

End Checker.

(** ** Directory changes that can fail *)

(** [os.chdir] as the operating system has it: [chdir_error d] is the
    description of the error with which a change to directory [d] fails,
    if it does, and then the process stays where it is.  [os_chdir] above
    is this call on a system where the two changes the script makes
    succeed; the definitions of this section are the installation group,
    the run and [main] without that assumption. *)
Section FallibleChdir.

Variable chdir_error : dir -> option pystr.
Variable w : world.

Definition os_chdir_os (p : pathname) : M unit :=
  fun s =>
    match chdir_error (resolve (cwd s) p) with
    | Some desc => (Raise (mkExn OtherException desc), s)
    | None => (Ok tt, set_cwd (resolve (cwd s) p) s)
    end.

Definition check_aeonsage_installation_os : M unit :=
  print w (Text (LF :: u "=== AeonSage 安装检查 ===")) ;;
  e <- os_path_exists w (Rel [u "aeonsage"]) ;;
  d <- os_path_isdir w (Rel [u "aeonsage"]) ;;
  let project_exists := e && d in
  log_result w (u "项目目录") project_exists
             (if project_exists then u "aeonsage" else u "未找到") ;;
  if negb project_exists then ret tt
  else
    original_dir <- os_getcwd ;;
    os_chdir_os (Rel [u "aeonsage"]) ;;
    try_finally (check_project_contents w) (os_chdir_os (Abs original_dir)).

Definition run_all_checks_os : M unit :=
  print w (Text (u "🤖 AeonSage Colab 环境验证")) ;;
  print w (Text (repeat 0x3D%N 50)) ;;
  check_system_info w ;;
  check_node_environment w ;;
  check_aeonsage_installation_os ;;
  check_network_connectivity w.

Definition run_comprehensive_test_os : M bool :=
  run_all_checks_os ;; print_summary w.

Definition main_os : M Z :=
  success <- run_comprehensive_test_os ;;
  (if negb success then
     print w (Text (LF :: u "💡 建议修复步骤:")) ;;
     print w (Text (u "1. 运行 !bash colab/quick_setup.sh")) ;;
     print w (Text (u "2. 或在 Colab 中逐个执行 setup_colab.ipynb 的单元格")) ;;
     print w (Text (u "3. 检查网络连接和磁盘空间"))
   else ret tt) ;;
  ret (if success then 0 else 1)%Z.

(** The outcome [out] of a computation started in [d]: the change back
    to [d] failed, its error is what was raised, and the process is still
    in the project directory. *)
Definition left_in_project {A} (d : dir) (out : res A * state) : Prop :=
  cwd (snd out) = d ++ [u "aeonsage"] /\
  exists desc, chdir_error d = Some desc /\
               fst out = Raise (mkExn OtherException desc).

(** How a computation started in [d] may raise [e] in state [s]: with the
    process in [d], or left in the project directory by the failed change
    back to [d]. *)
Definition raised_in_place_or_left (d : dir) (e : exn) (s : state) : Prop :=
  cwd s = d \/
  (cwd s = d ++ [u "aeonsage"] /\
   exists desc, chdir_error d = Some desc /\ e = mkExn OtherException desc).

End FallibleChdir.

(** ** The verdict *)

Inductive verdict_t : Type := READY | PARTIAL | NOT_CONFIGURED.

(** The branch [run_comprehensive_test] takes on a result sequence. *)
Definition verdict (rs : list CheckResult) : verdict_t :=
  if all (critical_checks rs) then READY
  else if any (critical_checks rs) then PARTIAL
  else NOT_CONFIGURED.

Definition verdict_message (v : verdict_t) : pystr :=
  match v with
  | READY => msg_ready
  | PARTIAL => msg_partial
  | NOT_CONFIGURED => msg_not_configured
  end.

(** The verdict rule in the specification's words: the [passed] value of
    each critical name is looked up in the sequence, and a name that was
    never recorded counts as failed. *)
Fixpoint lookup_passed (name : pystr) (rs : list CheckResult) : bool :=
  match rs with
  | [] => false
  | (n, p, _) :: rest => if eqb n name then p else lookup_passed name rest
  end.

Definition spec_verdict (rs : list CheckResult) : verdict_t :=
  let looked_up := map (fun name => lookup_passed name rs) critical_names in
  if forallb (fun b => b) looked_up then READY
  else if existsb (fun b => b) looked_up then PARTIAL
  else NOT_CONFIGURED.

(** ** Reasoning rules for the monad *)

(** From a state satisfying [P], [m] ends normally in a state satisfying
    [N] of its value, or raises in a state satisfying [E] of the exception. *)
Definition triple {A} (P : state -> Prop) (m : M A)
    (N : A -> state -> Prop) (E : exn -> state -> Prop) : Prop :=
  forall s, P s ->
    match m s with
    | (Ok a, s') => N a s'
    | (Raise e, s') => E e s'
    end.

(** [m] keeps the state property [I] however it ends, and every exception
    it lets through satisfies [X]. *)
Definition keeps {A} (I : state -> Prop) (X : exn -> Prop) (m : M A) : Prop :=
  triple I m (fun _ => I) (fun e s => I s /\ X e).

(** A state property that does not look at what was written or spawned. *)
Definition io_insensitive (I : state -> Prop) : Prop :=
  (forall s f, I s -> I (set_stdout f s)) /\
  (forall s f, I s -> I (set_invoked f s)).

(** The state change of [log_result], before its line is printed. *)
Definition record (r : CheckResult) (s : state) : state :=
  mkState (results s ++ [r])
          (if snd (fst r) then S (passed s) else passed s)
          (if snd (fst r) then failed s else S (failed s))
          (cwd s) (stdout s) (invoked s).

Definition record_insensitive (I : state -> Prop) : Prop :=
  forall s r, I s -> I (record r s).

(** The process is in directory [d]. *)
Definition at_dir (d : dir) : state -> Prop := fun s => cwd s = d.

(** The counters agree with the result sequence. *)
Definition tally_ok (s : state) : Prop :=
  passed s + failed s = length (results s).

(** The state after a sequence of [log_result] calls, each one made
    whether or not the previous one could print its line. *)
Definition record_all (w : world) (calls : list CheckResult) (s : state)
  : state :=
  fold_left (fun st call =>
               let '(test_name, passed, message) := call in
               snd (log_result w test_name passed message st))
            calls s.

(** At least one check has been recorded. *)
Definition some_checked (s : state) : Prop := 1 <= passed s + failed s.

Definition zero_division : exn :=
  mkExn ZeroDivisionError (u "division by zero").

Definition not_zero_division (e : exn) : Prop :=
  class_of e <> ZeroDivisionError.

(** ** What a run records when every line can be written *)

Definition quiet (w : world) : Prop := forall n, stdout_write w n = None.

(** What [run_command] returns in directory [d]: what the spawned command
    gave, or the message that stands for the exception. *)
Definition probe (w : world) (d : dir) (command : list pystr) : bool * pystr :=
  match spawn w d command (Some 30%N) with
  | Ok (returncode, out) => ((returncode =? 0)%Z, strip out)
  | Raise e =>
      match class_of e with
      | TimeoutExpired => (false, u "命令执行超时")
      | _ => (false, u "执行错误: " ++ str_exn e)
      end
  end.

(** [m], started in [s], returns [a] in state [s'], having appended
    [added] to the results and being back in the directory it started in. *)
Definition yields {A} (m : M A) (s : state) (a : A)
    (added : list CheckResult) (s' : state) : Prop :=
  m s = (Ok a, s') /\ results s' = results s ++ added /\ cwd s' = cwd s.

(** The same from any state in directory [d]. *)
Definition runs_from {A} (d : dir) (m : M A) (a : A)
    (added : list CheckResult) : Prop :=
  forall s, cwd s = d -> exists s', yields m s a added s'.

Definition disk_results (w : world) (d : dir) : list CheckResult :=
  match spawn w d df_command None with
  | Ok (returncode, out) =>
      if (returncode =? 0)%Z then
        let lines := split_on LF (strip out) in
        if 1 <? length lines then
          let disk_info := split (nth 1 lines []) in
          if 3 <? length disk_info then
            [(u "磁盘空间", true,
              u "已用: " ++ nth 2 disk_info [] ++ u ", 可用: "
                ++ nth 3 disk_info [])]
          else []
        else []
      else []
  | Raise _ => [(u "磁盘空间", false, u "无法获取磁盘信息")]
  end.

Definition system_info_results (w : world) (d : dir) : list CheckResult :=
  [(u "Python 版本", true, python_version w);
   (u "操作系统", true, platform_platform w);
   (u "系统架构", true, platform_architecture w);
   (u "GPU 支持", environ w (u "COLAB_GPU"),
    if environ w (u "COLAB_GPU") then u "可用" else u "不可用")]
  ++ disk_results w d.

Definition tool_result (w : world) (d : dir) (test_name : pystr)
    (command : list pystr) : CheckResult :=
  let '(success, version) := probe w d command in
  (test_name, success, if success then version else u "未安装").

Definition node_environment_results (w : world) (d : dir)
  : list CheckResult :=
  [tool_result w d (u "Node.js 安装") [u "node"; u "--version"];
   tool_result w d (u "npm 安装") [u "npm"; u "--version"];
   tool_result w d (u "pnpm 安装") [u "pnpm"; u "--version"];
   tool_result w d (u "Git 安装") [u "git"; u "--version"]].

Definition probe_result (w : world) (d : dir) (test_name : pystr)
    (command : list pystr) (good bad : pystr) : CheckResult :=
  let '(success, _) := probe w d command in
  (test_name, success, if success then good else bad).

(** The checks made inside the project directory [d]. *)
Definition project_contents_results (w : world) (d : dir)
  : list CheckResult :=
  let package_exists := path_exists w (d ++ [u "package.json"]) in
  let node_modules_exists := path_exists w (d ++ [u "node_modules"]) in
  let dist_exists := path_exists w (d ++ [u "dist"]) in
  (u "package.json", package_exists,
   if package_exists then u "存在" else u "缺失")
  :: (if package_exists then
        [(u "依赖安装", node_modules_exists,
          if node_modules_exists then u "已完成"
          else u "需要运行 pnpm install");
         (u "构建输出", dist_exists,
          if dist_exists then u "已构建" else u "需要运行 pnpm build")]
        ++ (if dist_exists then
              [(let '(success, version) :=
                  probe w d [u "pnpm"; u "aeonsage"; u "--version"] in
                (u "CLI 工具", success,
                 if success then version else u "无法执行"));
               probe_result w d (u "CLI 帮助")
                            [u "pnpm"; u "aeonsage"; u "--help"]
                            (u "可用") (u "不可用")]
            else [])
      else []).

Definition project_exists (w : world) (d : dir) : bool :=
  path_exists w (d ++ [u "aeonsage"]) && path_isdir w (d ++ [u "aeonsage"]).

Definition installation_results (w : world) (d : dir) : list CheckResult :=
  (u "项目目录", project_exists w d,
   if project_exists w d then u "aeonsage" else u "未找到")
  :: (if project_exists w d
      then project_contents_results w (d ++ [u "aeonsage"])
      else []).

Definition network_results (w : world) (d : dir) : list CheckResult :=
  [probe_result w d (u "互联网连接") [u "ping"; u "-c"; u "1"; u "8.8.8.8"]
                (u "正常") (u "异常");
   probe_result w d (u "GitHub 连接")
                [u "curl"; u "-s"; u "https://github.com"; u "--max-time";
                 u "10"]
                (u "可访问") (u "无法访问");
   probe_result w d (u "npm Registry") [u "npm"; u "ping"]
                (u "响应正常") (u "无响应")].

Definition run_results (w : world) : list CheckResult :=
  let d := initial_cwd w in
  system_info_results w d ++ node_environment_results w d
  ++ installation_results w d ++ network_results w d.

(** The verdict a written line announces, if it is one of the three
    verdict messages. *)
Definition verdict_of_line (l : line) : option verdict_t :=
  match l with
  | Text t =>
      if eqb t msg_ready then Some READY
      else if eqb t msg_partial then Some PARTIAL
      else if eqb t msg_not_configured then Some NOT_CONFIGURED
      else None
  | RateLine _ => None
  end.

(** The verdict a run from a fresh checker announces: the one whose
    message is the last line the run has written when it returns. *)
Definition announced (w : world) : option verdict_t :=
  match run_comprehensive_test w (init w) with
  | (Ok _, s') => verdict_of_line (last (stdout s') (Text []))
  | (Raise _, _) => None
  end.

(** Shapes of strings, to say what trimming does. *)
Definition all_space (s : pystr) : bool := forallb is_space s.

Definition starts_with_space (s : pystr) : bool :=
  match s with
  | [] => false
  | c :: _ => is_space c
  end.

Definition ends_with_space (s : pystr) : bool := starts_with_space (rev s).

(** ** What a run spawns and writes *)

(** An exception raised by a failed write to standard output. *)
Definition write_failure (w : world) (e : exn) : Prop :=
  exists n desc, stdout_write w n = Some desc /\
                 e = mkExn OtherException desc.

(** From any state in directory [d], [m] returns [a], having appended
    [added] to the results and [spawned] to the invoked commands, and is
    back in [d]. *)
Definition performs {A} (d : dir) (m : M A) (a : A)
    (added : list CheckResult) (spawned : list (dir * list pystr)) : Prop :=
  forall s, cwd s = d ->
    exists s', m s = (Ok a, s') /\
               results s' = results s ++ added /\
               invoked s' = invoked s ++ spawned /\
               cwd s' = d.

Definition version_tools : list (pystr * pystr) :=
  [(u "Node.js 安装", u "node"); (u "npm 安装", u "npm");
   (u "pnpm 安装", u "pnpm"); (u "Git 安装", u "git")].



Definition network_commands : list (list pystr) :=
  [[u "ping"; u "-c"; u "1"; u "8.8.8.8"];
   [u "curl"; u "-s"; u "https://github.com"; u "--max-time"; u "10"];
   [u "npm"; u "ping"]].



(** One row of the detail table. *)
Definition detail_row (r : CheckResult) : line :=
  let '(test_name, passed, message) := r in
  Text (u "  " ++ ljust 4 (if passed then u "PASS" else u "FAIL") ++ u " | "
        ++ ljust 20 test_name ++ u " | " ++ message).

(** The remediation block of [main]. *)
Definition remediation_lines : list line :=
  [Text (LF :: u "💡 建议修复步骤:");
   Text (u "1. 运行 !bash colab/quick_setup.sh");
   Text (u "2. 或在 Colab 中逐个执行 setup_colab.ipynb 的单元格");
   Text (u "3. 检查网络连接和磁盘空间")].

Definition is_critical (r : CheckResult) : bool :=
  py_in (fst (fst r)) critical_names.

(** At least [n] checks have been counted as passed. *)
Definition passed_at_least (n : nat) (s : state) : Prop := n <= passed s.

(** The entry a check built on [run_command] records for [command] run in
    [d]: it passes when the command exits with status 0, and then its
    message is [on_ok] of the trimmed output; in every other case (another
    status, a timeout, any failure to run it) the message is [bad]. *)
Definition command_entry (w : world) (d : dir) (test_name : pystr)
    (command : list pystr) (on_ok : pystr -> pystr) (bad : pystr)
  : CheckResult :=
  match spawn w d command (Some 30%N) with
  | Ok (returncode, out) =>
      (test_name, (returncode =? 0)%Z,
       if (returncode =? 0)%Z then on_ok (strip out) else bad)
  | Raise _ => (test_name, false, bad)
  end.

(** The network probes: name, command, message on success, on failure. *)
Definition network_probes : list (pystr * list pystr * pystr * pystr) :=
  [(u "互联网连接", [u "ping"; u "-c"; u "1"; u "8.8.8.8"],
    u "正常", u "异常");
   (u "GitHub 连接",
    [u "curl"; u "-s"; u "https://github.com"; u "--max-time"; u "10"],
    u "可访问", u "无法访问");
   (u "npm Registry", [u "npm"; u "ping"], u "响应正常", u "无响应")].

(** The rate the summary shows for [p] passed and [f] failed checks. *)
Definition rate_of (p f : nat) : Q :=
  (inject_Z (Z.of_nat p) / inject_Z (Z.of_nat (p + f)) * inject_Z 100)%Q.

(** What the summary writes for a checker in state [s]. *)
Definition summary_lines (s : state) : list line :=
  [Text (LF :: repeat 0x3D%N 50);
   Text (u "📊 测试总结: " ++ of_nat (passed s) ++ u " 通过, "
         ++ of_nat (failed s) ++ u " 失败");
   RateLine (rate_of (passed s) (failed s));
   Text (LF :: u "📋 详细结果:")]
  ++ map detail_row (results s)
  ++ [Text (LF :: u "🎯 环境状态:");
      Text (verdict_message (verdict (results s)))].

(** ** Worlds used in examples *)

Definition list_eqb (a b : list pystr) : bool :=
  if list_eq_dec (list_eq_dec N.eq_dec) a b then true else false.

(** A machine on which the script is started in [/content].  [tools] are
    the installed programs, each with what it prints before it exits with
    status 0; a program that is not installed cannot be launched.  [dirs]
    and [files] are what exists; [df] is what the disk probe does;
    [faults] tells which writes to standard output fail; the final flush
    succeeds. *)
Definition machine (tools : list (pystr * pystr)) (dirs files : list dir)
    (df : res (Z * pystr)) (faults : nat -> option pystr) : world :=
  mkWorld (u "3.10.12") (u "Linux-6.1.58+-x86_64-with-glibc2.35") (u "64bit")
    (fun _ => false)
    (fun p => existsb (list_eqb p) (dirs ++ files))
    (fun p => existsb (list_eqb p) dirs)
    (fun _ command _ =>
       if list_eqb command df_command then df
       else match command with
            | [] => Raise (mkExn OtherException (u "list index out of range"))
            | tool :: _ =>
                match find (fun t => eqb (fst t) tool) tools with
                | Some (_, out) => Ok (0%Z, out)
                | None =>
                    Raise (mkExn OtherException
                             (u "[Errno 2] No such file or directory: "
                                ++ tool))
                end
            end)
    faults
    [u "content"]
    false.

Definition no_faults : nat -> option pystr := fun _ => None.

(** The data row of the disk-usage scenario. *)
Definition disk_row : pystr := u "/dev/sda1 50G 20G 28G 42% /".

Definition df_output : pystr :=
  u "Filesystem      Size  Used Avail Use% Mounted on" ++ [LF]
  ++ disk_row ++ [LF].

Definition all_tools : list (pystr * pystr) :=
  [(u "node", u "v20.11.0" ++ [LF]); (u "npm", u "10.2.4" ++ [LF]);
   (u "pnpm", u "9.1.0" ++ [LF]); (u "git", u "git version 2.34.1" ++ [LF]);
   (u "ping", []); (u "curl", [])].

Definition project : dir := [u "content"; u "aeonsage"].

(** Everything installed and built. *)
Definition colab_ready : world :=
  machine all_tools
          [project; project ++ [u "node_modules"]; project ++ [u "dist"]]
          [project ++ [u "package.json"]]
          (Ok (0%Z, df_output)) no_faults.

(** Nothing installed, no project, no [df]. *)
Definition colab_bare : world :=
  machine [] [] []
          (Raise (mkExn OtherException
                    (u "[Errno 2] No such file or directory: 'df'")))
          no_faults.

(** The tools are installed and the project directory exists, but it has
    no [package.json]. *)
Definition colab_without_manifest : world :=
  machine all_tools [project] [] (Ok (0%Z, df_output)) no_faults.

(** Everything installed and built, but [df] exits with status 1 and
    prints nothing. *)
Definition colab_df_fails : world :=
  machine all_tools
          [project; project ++ [u "node_modules"]; project ++ [u "dist"]]
          [project ++ [u "package.json"]]
          (Ok (1%Z, [])) no_faults.

(** [node --version] indents its output. *)
Definition colab_indented_version : world :=
  machine [(u "node", u "  v20.11.0" ++ [LF])] [] []
          (Ok (0%Z, df_output)) no_faults.


(** The start directory can be left but not entered again. *)
Definition no_way_back : dir -> option pystr :=
  fun d => if list_eqb d [u "content"]
           then Some (u "[Errno 13] Permission denied: '/content'")
           else None.

(** Everything installed, and the write of line [n] fails. *)
Definition colab_broken_pipe (n : nat) : world :=
  machine all_tools
          [project; project ++ [u "node_modules"]; project ++ [u "dist"]]
          [project ++ [u "package.json"]]
          (Ok (0%Z, df_output))
          (fun k => if Nat.eqb k n then Some (u "[Errno 32] Broken pipe")
                    else None).

Create HintDb frame.

(** * Properties *)

Section Rules.

Context {A B : Type}.

Lemma triple_ret (P : state -> Prop) (a : A) N E :
  (forall s, P s -> N a s) -> triple P (ret a) N E.
Proof. intros H s Hs. cbn. auto. Qed.

Lemma triple_raise (P : state -> Prop) (e : exn) (N : A -> state -> Prop) E :
  (forall s, P s -> E e s) -> triple P (raise e) N E.
Proof. intros H s Hs. cbn. auto. Qed.

Lemma triple_get (P : state -> Prop) (f : state -> A) N E :
  (forall s, P s -> N (f s) s) -> triple P (get f) N E.
Proof. intros H s Hs. cbn. auto. Qed.

Lemma triple_bind (P : state -> Prop) (m : M A) (k : A -> M B)
    (R : A -> state -> Prop) N E :
  triple P m R E ->
  (forall a, triple (R a) (k a) N E) ->
  triple P (bind m k) N E.
Proof.
  intros Hm Hk s Hs. unfold bind. specialize (Hm s Hs).
  destruct (m s) as [[a|e] s1]; [exact (Hk a s1 Hm) | exact Hm].
Qed.

Lemma triple_try_except (P : state -> Prop) (body : M A) handler
    (H : exn -> state -> Prop) N E :
  triple P body N H ->
  (forall e, triple (H e) (handler e) N E) ->
  triple P (try_except body handler) N E.
Proof.
  intros Hb Hh s Hs. unfold try_except. specialize (Hb s Hs).
  destruct (body s) as [[a|e] s1]; [exact Hb | exact (Hh e s1 Hb)].
Qed.

Lemma triple_try_finally (P : state -> Prop) (body : M A) (fin : M unit)
    (N1 : A -> state -> Prop) (E1 : exn -> state -> Prop) N E :
  triple P body N1 E1 ->
  (forall a, triple (N1 a) fin (fun _ => N a) E) ->
  (forall e, triple (E1 e) fin (fun _ => E e) E) ->
  triple P (try_finally body fin) N E.
Proof.
  intros Hb Hn He s Hs. unfold try_finally. specialize (Hb s Hs).
  destruct (body s) as [[a|e] s1].
  - specialize (Hn a s1 Hb). destruct (fin s1) as [[[]|e'] s2]; exact Hn.
  - specialize (He e s1 Hb). destruct (fin s1) as [[[]|e'] s2]; exact He.
Qed.

Lemma triple_weaken (P P' : state -> Prop) (m : M A)
    (N N' : A -> state -> Prop) (E E' : exn -> state -> Prop) :
  triple P' m N' E' ->
  (forall s, P s -> P' s) ->
  (forall a s, N' a s -> N a s) ->
  (forall e s, E' e s -> E e s) ->
  triple P m N E.
Proof.
  intros Hm HP HN HE s Hs. specialize (Hm s (HP s Hs)).
  destruct (m s) as [[a|e] s1]; auto.
Qed.

Lemma triple_pure (P : state -> Prop) (F : Prop) (m : M A) N E :
  (F -> triple P m N E) -> triple (fun s => P s /\ F) m N E.
Proof. intros H s [Hs HF]. exact (H HF s Hs). Qed.

End Rules.

(** ** Properties kept by every step *)

Section KeepsRules.

Variables (I : state -> Prop) (X : exn -> Prop).

Lemma keeps_ret {A} (a : A) : keeps I X (ret a).
Proof. apply triple_ret. auto. Qed.

Lemma keeps_get {A} (f : state -> A) : keeps I X (get f).
Proof. apply triple_get. auto. Qed.

Lemma keeps_modify (f : state -> state) :
  (forall s, I s -> I (f s)) -> keeps I X (modify f).
Proof. intros H s Hs. cbn. auto. Qed.

Lemma keeps_bind {A B} (m : M A) (k : A -> M B) :
  keeps I X m -> (forall a, keeps I X (k a)) -> keeps I X (bind m k).
Proof. intros Hm Hk. eapply triple_bind; [exact Hm | exact Hk]. Qed.

Lemma keeps_try_except {A} (body : M A) handler :
  keeps I (fun _ => True) body -> (forall e, keeps I X (handler e)) ->
  keeps I X (try_except body handler).
Proof.
  intros Hb Hh. eapply triple_try_except with (H := fun _ => I).
  - eapply triple_weaken; [exact Hb | auto | auto | cbn; tauto].
  - exact Hh.
Qed.

Lemma keeps_try_finally {A} (body : M A) fin :
  keeps I X body -> keeps I X fin -> keeps I X (try_finally body fin).
Proof.
  intros Hb Hf. eapply triple_try_finally; [exact Hb | intros; exact Hf |].
  intros e. cbn. intros s [Hs He]. specialize (Hf s Hs).
  destruct (fin s) as [[[]|e'] s2]; cbn in *; tauto.
Qed.

Lemma keeps_for_each {A} (xs : list A) body :
  (forall x, keeps I X (body x)) -> keeps I X (for_each xs body).
Proof.
  intros Hb. induction xs as [|x xs IH]; cbn.
  - apply keeps_ret.
  - apply keeps_bind; auto.
Qed.

Lemma keeps_any {A} (m : M A) : keeps I X m -> keeps I (fun _ => True) m.
Proof.
  intros H. eapply triple_weaken; [exact H | auto | auto | cbn; tauto].
Qed.

End KeepsRules.

Lemma keeps_snd {A} I X (m : M A) s : keeps I X m -> I s -> I (snd (m s)).
Proof.
  intros H Hs. specialize (H s Hs). destruct (m s) as [[a|e] s1]; cbn in *; tauto.
Qed.

Lemma log_result_eq w test_name passed message s :
  log_result w test_name passed message s =
  print w (Text ((if passed then u "✓" else u "✗") ++ u " " ++ test_name
                 ++ u ": " ++ message))
        (record (test_name, passed, message) s).
Proof. unfold log_result, bind, modify. destruct passed; reflexivity. Qed.

Lemma run_command_eq w command s :
  run_command w command s =
  (Ok (probe w (cwd s) command),
   set_invoked (fun l => l ++ [(cwd s, command)]) s).
Proof.
  unfold run_command, try_except, bind, subprocess_run, probe, ret.
  destruct (spawn w (cwd s) command (Some 30%N)) as [[rc out]|e]; cbn.
  - reflexivity.
  - destruct (class_of e); reflexivity.
Qed.

Section Frame.

Variables (w : world) (I : state -> Prop) (X : exn -> Prop).
Hypothesis Hio : io_insensitive I.
Hypothesis Hrec : record_insensitive I.
Hypothesis Hprint :
  forall n desc, stdout_write w n = Some desc -> X (mkExn OtherException desc).

Lemma keeps_print l : keeps I X (print w l).
Proof.
  intros s Hs. unfold print. destruct (stdout_write w _) eqn:Hw.
  - split; [exact Hs | exact (Hprint _ _ Hw)].
  - apply Hio, Hs.
Qed.

Lemma keeps_log_result n b m : keeps I X (log_result w n b m).
Proof.
  intros s Hs. rewrite log_result_eq. apply keeps_print. apply Hrec, Hs.
Qed.

Lemma keeps_subprocess_run c t : keeps I (fun _ => True) (subprocess_run w c t).
Proof.
  intros s Hs. unfold subprocess_run.
  destruct (spawn w (cwd s) c t); cbn; [|split; [|exact Logic.I]]; apply Hio, Hs.
Qed.

Lemma keeps_run_command c : keeps I X (run_command w c).
Proof. intros s Hs. rewrite run_command_eq. apply Hio, Hs. Qed.

Lemma keeps_os_path_exists p : keeps I X (os_path_exists w p).
Proof. apply keeps_get. Qed.

Lemma keeps_os_path_isdir p : keeps I X (os_path_isdir w p).
Proof. apply keeps_get. Qed.

Hint Resolve keeps_ret keeps_get keeps_print keeps_log_result
  keeps_run_command keeps_os_path_exists keeps_os_path_isdir keeps_for_each
  : frame.

Ltac frame :=
  repeat first
    [ solve [auto with frame]
    | simple apply keeps_bind; [| intros ]
    | match goal with
      | |- keeps _ _ (let '(_, _) := ?r in _) => destruct r
      | |- keeps _ _ (if ?b then _ else _) => destruct b
      end ].

Lemma keeps_check_tool n c : keeps I X (check_tool w n c).
Proof. unfold check_tool. frame. Qed.

Lemma keeps_check_probe n c good bad : keeps I X (check_probe w n c good bad).
Proof. unfold check_probe. frame. Qed.

Lemma keeps_check_disk_space : keeps I X (check_disk_space w).
Proof.
  unfold check_disk_space. apply keeps_try_except.
  - apply keeps_bind; [apply keeps_subprocess_run | intros r].
    repeat match goal with
           | |- keeps _ _ (if ?b then _ else _) => destruct b
           end;
      try apply keeps_ret.
    apply keeps_any with (X := X), keeps_log_result.
  - intros _. apply keeps_log_result.
Qed.

Hint Resolve keeps_check_tool keeps_check_probe keeps_check_disk_space : frame.

Lemma keeps_check_system_info : keeps I X (check_system_info w).
Proof. unfold check_system_info. frame. Qed.

Lemma keeps_check_node_environment : keeps I X (check_node_environment w).
Proof. unfold check_node_environment. frame. Qed.

Lemma keeps_check_network_connectivity :
  keeps I X (check_network_connectivity w).
Proof. unfold check_network_connectivity. frame. Qed.

Lemma keeps_check_project_contents : keeps I X (check_project_contents w).
Proof. unfold check_project_contents. frame. Qed.

Lemma keeps_print_detail r : keeps I X (print_detail w r).
Proof. unfold print_detail. destruct r as [[n b] m]. apply keeps_print. Qed.

Lemma keeps_bind_get2 {A B C} (f : state -> A) (g : state -> B)
    (k : A -> B -> M C) :
  (forall s0, I s0 -> keeps I X (k (f s0) (g s0))) ->
  keeps I X (bind (get f) (fun a => bind (get g) (fun b => k a b))).
Proof. intros H s Hs. unfold bind, get. exact (H s Hs s Hs). Qed.

Lemma keeps_success_rate p f :
  (p + f = 0 -> X (mkExn ZeroDivisionError (u "division by zero"))) ->
  keeps I X (success_rate p f).
Proof.
  intros H s Hs. unfold success_rate.
  destruct (Nat.eqb_spec (p + f) 0) as [E|E]; cbn; auto.
Qed.

Lemma keeps_run_all_checks :
  keeps I X (check_aeonsage_installation w) -> keeps I X (run_all_checks w).
Proof.
  intros Hinst. unfold run_all_checks.
  pose proof keeps_check_system_info. pose proof keeps_check_node_environment.
  pose proof keeps_check_network_connectivity.
  frame.
Qed.

(** The summary keeps [I] as soon as the success rate cannot raise
    outside [X]. *)
Lemma keeps_print_summary :
  (forall s, I s -> passed s + failed s = 0 ->
             X (mkExn ZeroDivisionError (u "division by zero"))) ->
  keeps I X (print_summary w).
Proof.
  intros Hzero. unfold print_summary. pose proof keeps_print_detail.
  simple apply keeps_bind; [auto with frame | intros _].
  apply keeps_bind_get2. intros s0 Hs0.
  simple apply keeps_bind; [auto with frame | intros _].
  simple apply keeps_bind; [apply keeps_success_rate, Hzero, Hs0 | intros rate].
  frame.
Qed.

Lemma keeps_remediation (success : bool) (k : M Z) :
  keeps I X k ->
  keeps I X
    ((if negb success then
        print w (Text (LF :: u "💡 建议修复步骤:")) ;;
        print w (Text (u "1. 运行 !bash colab/quick_setup.sh")) ;;
        print w (Text (u "2. 或在 Colab 中逐个执行 setup_colab.ipynb 的单元格")) ;;
        print w (Text (u "3. 检查网络连接和磁盘空间"))
      else ret tt) ;; k).
Proof. intros Hk. frame. Qed.

Lemma keeps_main :
  keeps I X (run_comprehensive_test w) -> keeps I X (main w).
Proof.
  intros Hrun. unfold main.
  simple apply keeps_bind; [exact Hrun | intros success].
  apply keeps_remediation. apply keeps_ret.
Qed.

(** A property that does not look at the working directory either is kept
    by the installation group, hence by the run. *)
Hypothesis Hcwd : forall s d, I s -> I (set_cwd d s).

Lemma keeps_os_chdir p : keeps I X (os_chdir p).
Proof. apply keeps_modify. intros s Hs. apply Hcwd, Hs. Qed.

Lemma keeps_check_aeonsage_installation :
  keeps I X (check_aeonsage_installation w).
Proof.
  unfold check_aeonsage_installation. pose proof keeps_check_project_contents.
  pose proof keeps_os_chdir.
  do 4 (simple apply keeps_bind; [auto with frame | intros ]).
  destruct (negb _); [apply keeps_ret |].
  simple apply keeps_bind; [apply keeps_get | intros original_dir].
  simple apply keeps_bind; [auto | intros _].
  apply keeps_try_finally; auto.
Qed.

End Frame.

(** ** The working directory *)

Section WorkingDirectory.

Variables (w : world) (X : exn -> Prop).
Hypothesis HX : forall desc, X (mkExn OtherException desc).

Lemma at_dir_io d : io_insensitive (at_dir d).
Proof. split; intros s f Hs; exact Hs. Qed.

Lemma at_dir_record d : record_insensitive (at_dir d).
Proof. intros s [[n b] m] Hs. unfold record. cbn. destruct b; exact Hs. Qed.

(** The installation group leaves the process where it found it: before
    the directory change nothing moves, and after it the [finally] clause
    goes back, whether the body returned or raised. *)
Lemma install_restores_cwd d :
  keeps (at_dir d) X (check_aeonsage_installation w).
Proof.
  unfold check_aeonsage_installation.
  pose proof (at_dir_io d) as Hio. pose proof (at_dir_record d) as Hrec.
  assert (Hp : forall n desc, stdout_write w n = Some desc ->
                              X (mkExn OtherException desc))
    by (intros; apply HX).
  simple apply keeps_bind; [apply keeps_print; assumption | intros _].
  simple apply keeps_bind; [apply keeps_get | intros e].
  simple apply keeps_bind; [apply keeps_get | intros i].
  simple apply keeps_bind; [apply keeps_log_result; assumption | intros _].
  destruct (negb _); [apply keeps_ret |].
  eapply triple_bind with (R := fun a s => at_dir d s /\ a = d).
  { apply triple_get. intros s Hs. split; [exact Hs | exact Hs]. }
  intros original_dir. apply triple_pure. intros ->.
  eapply triple_bind with (R := fun _ => at_dir (d ++ [u "aeonsage"])).
  { intros s Hs. cbn. unfold at_dir in *. cbn. now rewrite Hs. }
  intros _.
  eapply triple_try_finally
    with (N1 := fun _ _ => True) (E1 := fun e _ => X e).
  - eapply triple_weaken.
    + apply (keeps_check_project_contents w (at_dir (d ++ [u "aeonsage"])) X);
        [apply at_dir_io | apply at_dir_record | exact Hp].
    + cbn. tauto.
    + cbn. tauto.
    + cbn. tauto.
  - intros _ s _. cbn. reflexivity.
  - intros e' s He. cbn. split; [reflexivity | exact He].
Qed.

End WorkingDirectory.

Lemma run_restores_cwd w d :
  keeps (at_dir d) (fun _ => True) (run_comprehensive_test w).
Proof.
  pose proof (at_dir_io d) as Hio. pose proof (at_dir_record d) as Hrec.
  unfold run_comprehensive_test. apply keeps_bind.
  - apply keeps_run_all_checks; auto. apply install_restores_cwd. auto.
  - intros _. apply keeps_print_summary; auto.
Qed.

(** Where both directory changes succeed, the working directory after the
    installation group, after the whole suite and after [main] is the one
    before, whichever way each of them ends: early return when the project
    directory is absent, normal completion, or an exception raised inside
    the group. *)
Lemma working_directory_restored (w : world) (s : state) :
  cwd (snd (check_aeonsage_installation w s)) = cwd s /\
  cwd (snd (run_comprehensive_test w s)) = cwd s /\
  cwd (snd (main w s)) = cwd s.
Proof.
  pose proof (at_dir_io (cwd s)) as Hio.
  pose proof (at_dir_record (cwd s)) as Hrec.
  repeat split.
  - apply (keeps_snd (at_dir (cwd s)) (fun _ => True)); [|reflexivity].
    apply install_restores_cwd. auto.
  - apply (keeps_snd (at_dir (cwd s)) (fun _ => True)); [|reflexivity].
    apply run_restores_cwd.
  - apply (keeps_snd (at_dir (cwd s)) (fun _ => True)); [|reflexivity].
    apply keeps_main; auto. apply run_restores_cwd.
Qed.


(** *** When a directory change fails *)

Lemma fallible_chdir_none w :
  check_aeonsage_installation_os (fun _ => None) w
  = check_aeonsage_installation w /\
  main_os (fun _ => None) w = main w.
Proof. split; reflexivity. Qed.

Section WorkingDirectoryOS.

Variables (c : dir -> option pystr) (w : world) (d : dir).

Lemma kept_or_left {A} (m : M A) :
  keeps (at_dir d) (fun _ => True) m ->
  triple (at_dir d) m (fun _ => at_dir d) (raised_in_place_or_left c d).
Proof.
  intros H. eapply triple_weaken; [exact H | auto | auto |].
  intros e s [Hs _]. left. exact Hs.
Qed.

Lemma install_os_cwd :
  triple (at_dir d) (check_aeonsage_installation_os c w)
         (fun _ => at_dir d) (raised_in_place_or_left c d).
Proof.
  pose proof (at_dir_io d) as Hio. pose proof (at_dir_record d) as Hrec.
  assert (Hp : forall n desc, stdout_write w n = Some desc ->
                 (fun _ : exn => True) (mkExn OtherException desc)) by auto.
  unfold check_aeonsage_installation_os.
  eapply triple_bind with (R := fun _ => at_dir d);
    [apply kept_or_left, keeps_print; assumption | intros ?].
  eapply triple_bind with (R := fun _ => at_dir d);
    [apply kept_or_left, keeps_get | intros e].
  eapply triple_bind with (R := fun _ => at_dir d);
    [apply kept_or_left, keeps_get | intros i].
  eapply triple_bind with (R := fun _ => at_dir d);
    [apply kept_or_left, keeps_log_result; assumption | intros ?].
  destruct (negb _); [apply triple_ret; auto |].
  eapply triple_bind with (R := fun a s => at_dir d s /\ a = d).
  { apply triple_get. intros s Hs. split; [exact Hs | exact Hs]. }
  intros original_dir. apply triple_pure. intros ->.
  eapply triple_bind with (R := fun _ => at_dir (d ++ [u "aeonsage"])).
  { intros s Hs. unfold os_chdir_os. cbn [resolve]. unfold at_dir in Hs.
    rewrite Hs. destruct (c (d ++ [u "aeonsage"])).
    - left. exact Hs.
    - reflexivity. }
  intros ?.
  eapply triple_try_finally
    with (N1 := fun _ => at_dir (d ++ [u "aeonsage"]))
         (E1 := fun _ => at_dir (d ++ [u "aeonsage"])).
  - eapply triple_weaken.
    + apply (keeps_check_project_contents w (at_dir (d ++ [u "aeonsage"]))
               (fun _ => True));
        [apply at_dir_io | apply at_dir_record | auto].
    + auto.
    + auto.
    + cbn. tauto.
  - intros ? s Hs. unfold os_chdir_os. cbn [resolve].
    destruct (c d) as [desc|] eqn:Hc.
    + right. split; [exact Hs | eauto].
    + reflexivity.
  - intros e' s Hs. unfold os_chdir_os. cbn [resolve].
    destruct (c d) as [desc|] eqn:Hc.
    + right. split; [exact Hs | eauto].
    + left. reflexivity.
Qed.

Lemma run_os_cwd :
  triple (at_dir d) (run_comprehensive_test_os c w)
         (fun _ => at_dir d) (raised_in_place_or_left c d).
Proof.
  pose proof (at_dir_io d) as Hio. pose proof (at_dir_record d) as Hrec.
  assert (Hp : forall n desc, stdout_write w n = Some desc ->
                 (fun _ : exn => True) (mkExn OtherException desc)) by auto.
  unfold run_comprehensive_test_os, run_all_checks_os.
  eapply triple_bind with (R := fun _ => at_dir d).
  - eapply triple_bind with (R := fun _ => at_dir d);
      [apply kept_or_left, keeps_print; assumption | intros ?].
    eapply triple_bind with (R := fun _ => at_dir d);
      [apply kept_or_left, keeps_print; assumption | intros ?].
    eapply triple_bind with (R := fun _ => at_dir d);
      [apply kept_or_left, keeps_check_system_info; assumption | intros ?].
    eapply triple_bind with (R := fun _ => at_dir d);
      [apply kept_or_left, keeps_check_node_environment; assumption
      | intros ?].
    eapply triple_bind with (R := fun _ => at_dir d);
      [apply install_os_cwd | intros ?].
    apply kept_or_left, keeps_check_network_connectivity; assumption.
  - intros ?. apply kept_or_left, keeps_print_summary; auto.
Qed.

Lemma main_os_cwd :
  triple (at_dir d) (main_os c w)
         (fun _ => at_dir d) (raised_in_place_or_left c d).
Proof.
  pose proof (at_dir_io d) as Hio. pose proof (at_dir_record d) as Hrec.
  assert (Hp : forall n desc, stdout_write w n = Some desc ->
                 (fun _ : exn => True) (mkExn OtherException desc)) by auto.
  unfold main_os.
  eapply triple_bind with (R := fun _ => at_dir d);
    [apply run_os_cwd | intros success].
  apply kept_or_left, keeps_remediation; auto. apply keeps_ret.
Qed.

Lemma restored_or_left {A} (m : M A) s :
  cwd s = d ->
  triple (at_dir d) m (fun _ => at_dir d) (raised_in_place_or_left c d) ->
  cwd (snd (m s)) = d \/ left_in_project c d (m s).
Proof.
  intros Hs H. specialize (H s Hs). unfold left_in_project.
  destruct (m s) as [[a|e] s1]; cbn [fst snd].
  - left. exact H.
  - destruct H as [H | (H & desc & Hc & ->)]; [left; exact H|].
    right. split; [exact H | eauto].
Qed.

End WorkingDirectoryOS.

(** C5, as stated, fails: when the start directory cannot be entered
    again, the [finally] clause raises and the process stays in the project
    directory. *)
Lemma working_directory_not_restored :
  let w := colab_ready in
  cwd (init w) = [u "content"] /\
  fst (check_aeonsage_installation_os no_way_back w (init w))
  = Raise (mkExn OtherException
             (u "[Errno 13] Permission denied: '/content'")) /\
  cwd (snd (check_aeonsage_installation_os no_way_back w (init w)))
  = [u "content"; u "aeonsage"] /\
  cwd (snd (main_os no_way_back w (init w))) <> cwd (init w).
Proof. vm_compute. repeat split; try reflexivity. discriminate. Qed.

(** C5, amended: after the installation group, after the whole suite and
    after [main], the process is in the directory it was in before, on
    every exit path (early return, normal completion, an exception raised
    inside the group or by the change into the project directory), unless
    the change back to that directory fails: then the error of that change
    is what is raised and the process is left in the project directory. *)
Theorem working_directory_unless_return_fails
    (chdir_error : dir -> option pystr) (w : world) (s : state) :
  (cwd (snd (check_aeonsage_installation_os chdir_error w s)) = cwd s \/
   left_in_project chdir_error (cwd s)
     (check_aeonsage_installation_os chdir_error w s)) /\
  (cwd (snd (run_comprehensive_test_os chdir_error w s)) = cwd s \/
   left_in_project chdir_error (cwd s)
     (run_comprehensive_test_os chdir_error w s)) /\
  (cwd (snd (main_os chdir_error w s)) = cwd s \/
   left_in_project chdir_error (cwd s) (main_os chdir_error w s)).
Proof.
  repeat split.
  - apply restored_or_left; [reflexivity | apply install_os_cwd].
  - apply restored_or_left; [reflexivity | apply run_os_cwd].
  - apply restored_or_left; [reflexivity | apply main_os_cwd].
Qed.

(** ** The tally *)

Lemma log_result_state w n b m s :
  snd (log_result w n b m s) = record (n, b, m) s \/
  exists out, snd (log_result w n b m s)
              = set_stdout (fun _ => out) (record (n, b, m) s).
Proof.
  rewrite log_result_eq. unfold print.
  destruct (stdout_write w _); cbn; [left; reflexivity|].
  right. eexists. reflexivity.
Qed.

Lemma log_result_fields w n b m s :
  results (snd (log_result w n b m s)) = results s ++ [(n, b, m)] /\
  passed (snd (log_result w n b m s)) = passed s + (if b then 1 else 0) /\
  failed (snd (log_result w n b m s)) = failed s + (if b then 0 else 1).
Proof.
  destruct (log_result_state w n b m s) as [-> | [out ->]];
    unfold record; destruct b; cbn; repeat split; lia.
Qed.

Lemma tally_ok_io : io_insensitive tally_ok.
Proof. split; intros s f Hs; exact Hs. Qed.

Lemma tally_ok_record : record_insensitive tally_ok.
Proof.
  intros s [[n b] m]. unfold tally_ok, record. cbn.
  destruct b; cbn; rewrite length_app; cbn; lia.
Qed.

Lemma tally_ok_main w : keeps tally_ok (fun _ => True) (main w).
Proof.
  pose proof tally_ok_io. pose proof tally_ok_record.
  assert (Hcwd : forall s d, tally_ok s -> tally_ok (set_cwd d s))
    by (intros s d Hs; exact Hs).
  apply keeps_main; auto. unfold run_comprehensive_test. apply keeps_bind.
  - apply keeps_run_all_checks; auto.
    apply keeps_check_aeonsage_installation; auto.
  - intros _. apply keeps_print_summary; auto.
Qed.

Lemma record_all_cons w n b m calls s :
  record_all w ((n, b, m) :: calls) s
  = record_all w calls (snd (log_result w n b m s)).
Proof. reflexivity. Qed.

Lemma record_all_results w calls s :
  results (record_all w calls s) = results s ++ calls.
Proof.
  revert s. induction calls as [|[[n b] m] calls IH]; intros s.
  - cbn. now rewrite app_nil_r.
  - rewrite record_all_cons, IH.
    destruct (log_result_fields w n b m s) as [-> _].
    now rewrite <- app_assoc.
Qed.

Lemma record_all_tally w calls s :
  tally_ok s -> tally_ok (record_all w calls s).
Proof.
  revert s. induction calls as [|[[n b] m] calls IH]; intros s Hs.
  - exact Hs.
  - rewrite record_all_cons. apply IH. unfold tally_ok in *.
    destruct (log_result_fields w n b m s) as [-> [-> ->]].
    rewrite length_app. destruct b; cbn; lia.
Qed.

(** C6: every [log_result] call appends exactly its own entry and adds one
    to exactly one counter, also when its line cannot be printed; so after
    any sequence of recorded checks on a fresh checker, and at the end of
    any run of the script, the two counters sum to the number of results. *)
Theorem tally_matches_results (w : world) :
  (forall s n b m,
      let s' := snd (log_result w n b m s) in
      results s' = results s ++ [(n, b, m)] /\
      passed s' = passed s + (if b then 1 else 0) /\
      failed s' = failed s + (if b then 0 else 1)) /\
  (forall calls,
      let s := record_all w calls (init w) in
      results s = calls /\ passed s + failed s = length (results s)) /\
  passed (snd (main w (init w))) + failed (snd (main w (init w)))
  = length (results (snd (main w (init w)))).
Proof.
  split; [|split].
  - intros s n b m. apply log_result_fields.
  - intros calls. split.
    + apply record_all_results.
    + apply record_all_tally. reflexivity.
  - apply (keeps_snd tally_ok (fun _ => True)); [apply tally_ok_main|].
    reflexivity.
Qed.

(** ** The success rate *)

Lemma some_checked_io : io_insensitive some_checked.
Proof. split; intros s f Hs; exact Hs. Qed.

Lemma some_checked_record : record_insensitive some_checked.
Proof.
  intros s [[n b] m]. unfold some_checked, record. cbn.
  destruct b; cbn; lia.
Qed.

Lemma record_some_checked r s : some_checked (record r s).
Proof.
  destruct r as [[n b] m]. unfold some_checked, record. cbn.
  destruct b; cbn; lia.
Qed.

Section SuccessRate.

Variable w : world.

Lemma print_not_zero_division desc : not_zero_division (mkExn OtherException desc).
Proof. unfold not_zero_division. cbn. discriminate. Qed.

(** The first group records the interpreter version before anything else
    can go wrong after its header. *)
Lemma check_system_info_some_checked :
  triple (fun _ => True) (check_system_info w)
         (fun _ => some_checked) (fun e _ => not_zero_division e).
Proof.
  pose proof some_checked_io as Hio. pose proof some_checked_record as Hrec.
  assert (HX : forall n desc, stdout_write w n = Some desc ->
                              not_zero_division (mkExn OtherException desc))
    by (intros; apply print_not_zero_division).
  unfold check_system_info.
  eapply triple_bind with (R := fun _ _ => True).
  { intros s _. unfold print.
    destruct (stdout_write w _); cbn; auto using print_not_zero_division. }
  intros _.
  eapply triple_bind with (R := fun _ => some_checked).
  { intros s _. rewrite log_result_eq.
    pose proof (keeps_print w some_checked not_zero_division Hio HX) as Hp.
    specialize (Hp (Text (u "✓" ++ u " " ++ u "Python 版本" ++ u ": "
                          ++ python_version w))
                   (record (u "Python 版本", true, python_version w) s)
                   (record_some_checked _ _)).
    destruct (print w _ _) as [[[]|e] s1]; cbn in *; tauto. }
  intros _. eapply triple_weaken with (P' := some_checked).
  - assert (H : keeps some_checked not_zero_division
                  (log_result w (u "操作系统") true (platform_platform w) ;;
                   log_result w (u "系统架构") true (platform_architecture w) ;;
                   log_result w (u "GPU 支持") (environ w (u "COLAB_GPU"))
                     (if environ w (u "COLAB_GPU") then u "可用"
                      else u "不可用") ;;
                   check_disk_space w)).
    { repeat (simple apply keeps_bind;
              [apply keeps_log_result; assumption | intros _]).
      apply keeps_check_disk_space; assumption. }
    exact H.
  - auto.
  - auto.
  - cbn. tauto.
Qed.

Lemma run_never_divides_by_zero :
  triple (fun _ => True) (run_comprehensive_test w)
         (fun _ => some_checked) (fun e _ => not_zero_division e).
Proof.
  pose proof some_checked_io as Hio. pose proof some_checked_record as Hrec.
  assert (HX : forall n desc, stdout_write w n = Some desc ->
                              not_zero_division (mkExn OtherException desc))
    by (intros; apply print_not_zero_division).
  assert (Hcwd : forall s d, some_checked s -> some_checked (set_cwd d s))
    by (intros s d Hs; exact Hs).
  unfold run_comprehensive_test.
  eapply triple_bind with (R := fun _ => some_checked).
  - unfold run_all_checks.
    eapply triple_bind with (R := fun _ _ => True).
    { intros s _. unfold print.
    destruct (stdout_write w _); cbn; auto using print_not_zero_division. }
    intros _. eapply triple_bind with (R := fun _ _ => True).
    { intros s _. unfold print.
    destruct (stdout_write w _); cbn; auto using print_not_zero_division. }
    intros _. eapply triple_bind; [apply check_system_info_some_checked|].
    intros []. eapply triple_weaken with (P' := some_checked).
    + assert (H : keeps some_checked not_zero_division
                    (check_node_environment w ;;
                     check_aeonsage_installation w ;;
                     check_network_connectivity w)).
      { simple apply keeps_bind;
          [apply keeps_check_node_environment; assumption | intros _].
        simple apply keeps_bind;
          [apply keeps_check_aeonsage_installation; assumption | intros _].
        apply keeps_check_network_connectivity; assumption. }
      exact H.
    + auto.
    + auto.
    + cbn. tauto.
  - intros []. eapply triple_weaken with (P' := some_checked).
    + apply (keeps_print_summary w some_checked not_zero_division); auto.
      intros s Hs Hz. unfold some_checked in Hs. lia.
    + auto.
    + auto.
    + cbn. tauto.
Qed.

Lemma main_never_divides_by_zero :
  triple (fun _ => True) (main w) (fun _ _ => True) (fun e _ => not_zero_division e).
Proof.
  pose proof some_checked_io as Hio. pose proof some_checked_record as Hrec.
  assert (HX : forall n desc, stdout_write w n = Some desc ->
                              not_zero_division (mkExn OtherException desc))
    by (intros; apply print_not_zero_division).
  unfold main. eapply triple_bind; [apply run_never_divides_by_zero|].
  intros success. eapply triple_weaken with (P' := some_checked).
  - apply (keeps_remediation w some_checked not_zero_division); auto. apply keeps_ret.
  - auto.
  - auto.
  - cbn. tauto.
Qed.

End SuccessRate.

(** ** Runs in which every line can be written *)

Lemma yields_ret {A} (a : A) s : yields (ret a) s a [] s.
Proof. unfold yields. cbn. now rewrite app_nil_r. Qed.

Lemma yields_get {A} (f : state -> A) s : yields (get f) s (f s) [] s.
Proof. unfold yields. cbn. now rewrite app_nil_r. Qed.

Lemma yields_bind {A B} (m : M A) (k : A -> M B) s a xs s1 b ys s2 added :
  yields m s a xs s1 ->
  yields (k a) s1 b ys s2 ->
  added = xs ++ ys ->
  yields (bind m k) s b added s2.
Proof.
  intros (Hm & Hr1 & Hc1) (Hk & Hr2 & Hc2) ->. unfold yields, bind.
  rewrite Hm, Hk, Hr2, Hr1, Hc2, Hc1. now rewrite app_assoc.
Qed.

Lemma yields_run_command w command s :
  yields (run_command w command) s (probe w (cwd s) command) []
         (set_invoked (fun l => l ++ [(cwd s, command)]) s).
Proof.
  unfold yields. rewrite run_command_eq. cbn. now rewrite app_nil_r.
Qed.

Lemma runs_from_ret {A} d (a : A) : runs_from d (ret a) a [].
Proof. intros s _. exists s. apply yields_ret. Qed.

Lemma runs_from_bind {A B} d (m : M A) (k : A -> M B) a xs b ys added :
  runs_from d m a xs ->
  runs_from d (k a) b ys ->
  added = xs ++ ys ->
  runs_from d (bind m k) b added.
Proof.
  intros Hm Hk -> s Hs. destruct (Hm s Hs) as [s1 H1].
  destruct (Hk s1) as [s2 H2].
  - destruct H1 as (_ & _ & ->). exact Hs.
  - exists s2. eapply yields_bind; eauto.
Qed.

Section Quiet.

Variable w : world.
Hypothesis Hq : quiet w.

Lemma runs_from_print d l : runs_from d (print w l) tt [].
Proof.
  intros s _. eexists. unfold yields, print. rewrite Hq. cbn.
  rewrite app_nil_r. auto.
Qed.

Lemma runs_from_log_result d n b m :
  runs_from d (log_result w n b m) tt [(n, b, m)].
Proof.
  intros s _. eexists. unfold yields. rewrite log_result_eq. unfold print.
  rewrite Hq. cbn. auto.
Qed.

Lemma runs_from_run_command d c :
  runs_from d (run_command w c) (probe w d c) [].
Proof.
  intros s <-. eexists. unfold yields. rewrite run_command_eq. cbn.
  rewrite app_nil_r. auto.
Qed.

Lemma runs_from_os_path_exists d p :
  runs_from d (os_path_exists w p) (path_exists w (resolve d p)) [].
Proof.
  intros s <-. exists s.
  exact (yields_get (fun st => path_exists w (resolve (cwd st) p)) s).
Qed.

Lemma runs_from_os_path_isdir d p :
  runs_from d (os_path_isdir w p) (path_isdir w (resolve d p)) [].
Proof.
  intros s <-. exists s.
  exact (yields_get (fun st => path_isdir w (resolve (cwd st) p)) s).
Qed.

Lemma runs_from_check_tool d n c :
  runs_from d (check_tool w n c) tt [tool_result w d n c].
Proof.
  unfold check_tool, tool_result.
  eapply runs_from_bind; [apply runs_from_run_command | | reflexivity].
  destruct (probe w d c) as [success version]. apply runs_from_log_result.
Qed.

Lemma runs_from_check_probe d n c good bad :
  runs_from d (check_probe w n c good bad) tt [probe_result w d n c good bad].
Proof.
  unfold check_probe, probe_result.
  eapply runs_from_bind; [apply runs_from_run_command | | reflexivity].
  destruct (probe w d c) as [success version]. apply runs_from_log_result.
Qed.

Lemma runs_from_check_disk_space d :
  runs_from d (check_disk_space w) tt (disk_results w d).
Proof.
  intros s <-.
  unfold yields, check_disk_space, disk_results, try_except, bind,
    subprocess_run.
  destruct (spawn w (cwd s) df_command None) as [[rc out]|e].
  - cbn [fst snd].
    destruct (rc =? 0)%Z;
      [destruct (1 <? length (split_on LF (strip out)));
       [destruct (3 <? length (split (nth 1 (split_on LF (strip out)) [])))|]|].
    + destruct (runs_from_log_result (cwd s) (u "磁盘空间") true
        (u "已用: " ++ nth 2 (split (nth 1 (split_on LF (strip out)) [])) []
           ++ u ", 可用: "
           ++ nth 3 (split (nth 1 (split_on LF (strip out)) [])) [])
        (set_invoked (fun l => l ++ [(cwd s, df_command)]) s) eq_refl)
        as [s' (H1 & H2 & H3)].
      exists s'. rewrite H1. auto.
    + eexists. unfold yields, ret. cbn. rewrite app_nil_r. auto.
    + eexists. unfold yields, ret. cbn. rewrite app_nil_r. auto.
    + eexists. unfold yields, ret. cbn. rewrite app_nil_r. auto.
  - destruct (runs_from_log_result (cwd s) (u "磁盘空间") false
        (u "无法获取磁盘信息")
        (set_invoked (fun l => l ++ [(cwd s, df_command)]) s) eq_refl)
        as [s' (H1 & H2 & H3)].
    exists s'. rewrite H1. auto.
Qed.

Lemma runs_from_check_system_info d :
  runs_from d (check_system_info w) tt (system_info_results w d).
Proof.
  unfold check_system_info, system_info_results.
  eapply runs_from_bind; [apply runs_from_print | | reflexivity].
  eapply runs_from_bind; [apply runs_from_log_result | | reflexivity].
  eapply runs_from_bind; [apply runs_from_log_result | | reflexivity].
  eapply runs_from_bind; [apply runs_from_log_result | | reflexivity].
  eapply runs_from_bind; [apply runs_from_log_result | | reflexivity].
  apply runs_from_check_disk_space.
Qed.

Lemma runs_from_check_node_environment d :
  runs_from d (check_node_environment w) tt (node_environment_results w d).
Proof.
  unfold check_node_environment, node_environment_results.
  eapply runs_from_bind; [apply runs_from_print | | reflexivity].
  eapply runs_from_bind; [apply runs_from_check_tool | | reflexivity].
  eapply runs_from_bind; [apply runs_from_check_tool | | reflexivity].
  eapply runs_from_bind; [apply runs_from_check_tool | | reflexivity].
  apply runs_from_check_tool.
Qed.

Lemma runs_from_check_network_connectivity d :
  runs_from d (check_network_connectivity w) tt (network_results w d).
Proof.
  unfold check_network_connectivity, network_results.
  eapply runs_from_bind; [apply runs_from_print | | reflexivity].
  eapply runs_from_bind; [apply runs_from_check_probe | | reflexivity].
  eapply runs_from_bind; [apply runs_from_check_probe | | reflexivity].
  apply runs_from_check_probe.
Qed.

Lemma runs_from_check_project_contents d :
  runs_from d (check_project_contents w) tt (project_contents_results w d).
Proof.
  unfold check_project_contents, project_contents_results.
  eapply runs_from_bind; [apply runs_from_os_path_exists | | reflexivity].
  cbn [resolve].
  eapply runs_from_bind; [apply runs_from_log_result | | reflexivity].
  destruct (path_exists w (d ++ [u "package.json"])); [|apply runs_from_ret].
  eapply runs_from_bind; [apply runs_from_os_path_exists | | reflexivity].
  cbn [resolve].
  eapply runs_from_bind; [apply runs_from_log_result | | reflexivity].
  eapply runs_from_bind; [apply runs_from_os_path_exists | | reflexivity].
  cbn [resolve].
  eapply runs_from_bind; [apply runs_from_log_result | | reflexivity].
  destruct (path_exists w (d ++ [u "dist"])); [|apply runs_from_ret].
  eapply runs_from_bind; [apply runs_from_run_command | | reflexivity].
  destruct (probe w d [u "pnpm"; u "aeonsage"; u "--version"])
    as [success version].
  eapply runs_from_bind; [apply runs_from_log_result | | reflexivity].
  unfold probe_result.
  eapply runs_from_bind; [apply runs_from_run_command | | reflexivity].
  destruct (probe w d [u "pnpm"; u "aeonsage"; u "--help"]) as [success' out].
  apply runs_from_log_result.
Qed.

(** Entering the project directory, checking its contents and going
    back. *)
Lemma runs_from_enter_project d :
  runs_from d
    (original_dir <- os_getcwd ;;
     os_chdir (Rel [u "aeonsage"]) ;;
     try_finally (check_project_contents w) (os_chdir (Abs original_dir)))
    tt (project_contents_results w (d ++ [u "aeonsage"])).
Proof.
  intros s Hs.
  destruct (runs_from_check_project_contents (d ++ [u "aeonsage"])
              (set_cwd (cwd s ++ [u "aeonsage"]) s))
    as [s1 (H1 & H2 & H3)].
  { cbn. now rewrite Hs. }
  exists (set_cwd (cwd s) s1).
  unfold yields, bind, os_getcwd, get, os_chdir, modify, try_finally.
  cbn [resolve]. rewrite H1. cbn. rewrite H2. cbn. auto.
Qed.

Lemma runs_from_check_aeonsage_installation d :
  runs_from d (check_aeonsage_installation w) tt (installation_results w d).
Proof.
  unfold check_aeonsage_installation, installation_results, project_exists.
  eapply runs_from_bind; [apply runs_from_print | | reflexivity].
  eapply runs_from_bind; [apply runs_from_os_path_exists | | reflexivity].
  eapply runs_from_bind; [apply runs_from_os_path_isdir | | reflexivity].
  cbn [resolve].
  eapply runs_from_bind; [apply runs_from_log_result | | reflexivity].
  destruct (path_exists w (d ++ [u "aeonsage"])
            && path_isdir w (d ++ [u "aeonsage"])); cbn [negb].
  - apply runs_from_enter_project.
  - apply runs_from_ret.
Qed.

Lemma runs_from_run_all_checks :
  runs_from (initial_cwd w) (run_all_checks w) tt (run_results w).
Proof.
  unfold run_all_checks, run_results.
  eapply runs_from_bind; [apply runs_from_print | | reflexivity].
  eapply runs_from_bind; [apply runs_from_print | | reflexivity].
  eapply runs_from_bind; [apply runs_from_check_system_info | | reflexivity].
  eapply runs_from_bind;
    [apply runs_from_check_node_environment | | reflexivity].
  eapply runs_from_bind;
    [apply runs_from_check_aeonsage_installation | | reflexivity].
  apply runs_from_check_network_connectivity.
Qed.

End Quiet.

(** ** The verdict and the exit status *)

Lemma keeps_loosely {A} I X (m : M A) :
  keeps I X m -> triple I m (fun _ => I) (fun _ _ => True).
Proof.
  intros H. eapply triple_weaken; [exact H | auto | auto | auto].
Qed.

Lemma verdict_ready_iff rs :
  verdict rs = READY <-> all (critical_checks rs) = true.
Proof.
  unfold verdict. destruct (all (critical_checks rs)).
  - tauto.
  - destruct (any (critical_checks rs)); split; discriminate.
Qed.

(** The summary prints the message of [verdict] last, returns whether it
    is [READY], and records nothing. *)
Lemma print_summary_verdict w rs :
  triple (fun s => results s = rs) (print_summary w)
         (fun b s' =>
            results s' = rs /\
            b = all (critical_checks rs) /\
            last (stdout s') (Text []) = Text (verdict_message (verdict rs)))
         (fun _ s' => results s' = rs).
Proof.
  set (J := fun s => results s = rs).
  assert (Hio : io_insensitive J) by (split; intros s f Hs; exact Hs).
  assert (Hp : forall l, triple J (print w l) (fun _ => J) (fun _ => J)).
  { intros l s Hs. unfold print. destruct (stdout_write w _); exact Hs. }
  assert (Hend : forall msg b,
             verdict_message (verdict rs) = msg ->
             b = all (critical_checks rs) ->
             triple J (print w (Text msg) ;; ret b)
               (fun b' s' => results s' = rs /\ b' = all (critical_checks rs)
                             /\ last (stdout s') (Text [])
                                = Text (verdict_message (verdict rs)))
               (fun _ => J)).
  { intros msg b Hmsg Hb s Hs. unfold bind, print, ret.
    destruct (stdout_write w _); [exact Hs|]. cbn.
    rewrite last_last, Hmsg. auto. }
  assert (Hg : forall A (f : state -> A),
             triple J (get f) (fun _ => J) (fun _ => J)).
  { intros A f. apply triple_get. auto. }
  unfold print_summary.
  eapply triple_bind with (R := fun _ => J); [apply Hp | intros ?].
  eapply triple_bind with (R := fun _ => J); [apply Hg | intros p].
  eapply triple_bind with (R := fun _ => J); [apply Hg | intros f].
  eapply triple_bind with (R := fun _ => J); [apply Hp | intros ?].
  eapply triple_bind with (R := fun _ => J).
  { intros s Hs. unfold success_rate. destruct (Nat.eqb _ _); exact Hs. }
  intros rate.
  eapply triple_bind with (R := fun _ => J); [apply Hp | intros ?].
  eapply triple_bind with (R := fun _ => J); [apply Hp | intros ?].
  eapply triple_bind with (R := fun _ => J); [apply Hg | intros rs1].
  eapply triple_bind with (R := fun _ => J).
  { clear Hend. induction rs1 as [|[[n b] m] rest IH]; cbn.
    - apply triple_ret. auto.
    - eapply triple_bind with (R := fun _ => J);
        [apply Hp | intros ?; exact IH]. }
  intros ?.
  eapply triple_bind with (R := fun _ => J); [apply Hp | intros ?].
  eapply triple_bind with (R := fun a s => J s /\ a = rs).
  { apply triple_get. intros s Hs. split; [exact Hs | exact Hs]. }
  intros rs2. apply triple_pure. intros ->.
  destruct (all (critical_checks rs)) eqn:Hall.
  - apply Hend; [unfold verdict; rewrite Hall|]; reflexivity.
  - destruct (any (critical_checks rs)) eqn:Hany;
      (apply Hend; [unfold verdict; rewrite Hall, Hany|]; reflexivity).
Qed.

Lemma run_comprehensive_test_verdict w s b s' :
  run_comprehensive_test w s = (Ok b, s') ->
  b = all (critical_checks (results s')) /\
  last (stdout s') (Text []) = Text (verdict_message (verdict (results s'))).
Proof.
  unfold run_comprehensive_test, bind.
  destruct (run_all_checks w s) as [[[]|e] s1]; [|discriminate].
  intros H. pose proof (print_summary_verdict w (results s1) s1 eq_refl) as Hv.
  rewrite H in Hv. destruct Hv as (-> & Hb & Hl). auto.
Qed.

(** [main] returns 0 after a run that returned [True], and otherwise
    returns 1 unless a remediation line cannot be written. *)
Lemma main_status w s :
  match run_comprehensive_test w s with
  | (Ok true, _) => fst (main w s) = Ok 0%Z
  | (Ok false, _) => fst (main w s) = Ok 1%Z \/ exists e, fst (main w s) = Raise e
  | (Raise e, _) => fst (main w s) = Raise e
  end.
Proof.
  unfold main, bind.
  destruct (run_comprehensive_test w s) as [[[|]|e] s1]; cbn [negb].
  - reflexivity.
  - repeat match goal with
           | |- context [print w ?l ?st] =>
               let E := fresh in
               destruct (print w l st) as [[[]|?] ?] eqn:E;
               [|right; eexists; reflexivity]
           end.
    left. reflexivity.
  - reflexivity.
Qed.

Lemma verdict_of_line_message v :
  verdict_of_line (Text (verdict_message v)) = Some v.
Proof. destruct v; vm_compute; reflexivity. Qed.

Lemma announced_verdict w b s' :
  run_comprehensive_test w (init w) = (Ok b, s') ->
  announced w = Some (verdict (results s')).
Proof.
  intros H. unfold announced. rewrite H.
  destruct (run_comprehensive_test_verdict w (init w) b s' H) as [_ ->].
  apply verdict_of_line_message.
Qed.

(** [main] returns 0 exactly when the run announced READY, and any other
    status it returns is 1.  The announced verdict is the one whose message
    the run writes last, and it is READY exactly when the run returns
    [True], that is, when every recorded critical check passed. *)
Lemma main_returns_zero_iff_ready (w : world) :
  (fst (main w (init w)) = Ok 0%Z <-> announced w = Some READY) /\
  (forall status, fst (main w (init w)) = Ok status ->
                  status = 0%Z \/ status = 1%Z) /\
  (forall b s', run_comprehensive_test w (init w) = (Ok b, s') ->
     announced w = Some (verdict (results s')) /\
     last (stdout s') (Text [])
     = Text (verdict_message (verdict (results s'))) /\
     (b = true <-> verdict (results s') = READY)).
Proof.
  pose proof (main_status w (init w)) as Hm.
  pose proof (run_comprehensive_test_verdict w (init w)) as Hv.
  pose proof (announced_verdict w) as Ha.
  destruct (run_comprehensive_test w (init w)) as [[b|e] s1] eqn:Hrun.
  - destruct (Hv b s1 eq_refl) as [Hb Hl].
    assert (Hr : b = true <-> verdict (results s1) = READY)
      by (rewrite verdict_ready_iff, <- Hb; tauto).
    rewrite (Ha b s1 eq_refl).
    split; [|split].
    + destruct b.
      * rewrite Hm. split; intros _; [f_equal; tauto | reflexivity].
      * split.
        -- intros H0. exfalso.
           destruct Hm as [Hm | [e Hm]]; rewrite Hm in H0; discriminate.
        -- intros H1. injection H1 as H1. apply Hr in H1. discriminate.
    + intros status Hs. destruct b.
      * rewrite Hm in Hs. injection Hs as <-. auto.
      * destruct Hm as [Hm | [e Hm]]; rewrite Hm in Hs;
          [injection Hs as <-; auto | discriminate].
    + intros b' s' H. injection H as -> ->. auto.
  - rewrite Hm. unfold announced. rewrite Hrun. split; [|split].
    + split; discriminate.
    + intros status Hs. discriminate.
    + intros b s' H. discriminate.
Qed.

(** C7, at the machine of C1 (tools and project directory, no
    [package.json]): [main] returns 0 and the process exits with status 0,
    although the dependency and build checks were never recorded, let alone
    passed; with a missing critical check counted as failed the verdict is
    PARTIAL, for which the status is 1. *)
Theorem exit_zero_with_critical_checks_missing :
  let w := colab_without_manifest in
  let rs := results (snd (main w (init w))) in
  fst (main w (init w)) = Ok 0%Z /\
  exit_status w = 0%Z /\
  existsb (fun r => eqb (fst (fst r)) (u "依赖安装")
                    || eqb (fst (fst r)) (u "构建输出")) rs = false /\
  lookup_passed (u "依赖安装") rs = false /\
  lookup_passed (u "构建输出") rs = false /\
  spec_verdict rs = PARTIAL.
Proof. vm_compute. repeat split; reflexivity. Qed.

(** C1, at a machine with the tools and the project directory but no
    [package.json]: the dependency and build checks are never recorded, the
    three recorded critical checks passed, and the run announces READY and
    exits with status 0, where the rule that counts a missing critical
    check as failed gives PARTIAL. *)
Theorem missing_critical_checks_ignored :
  let w := colab_without_manifest in
  let rs := results (snd (run_comprehensive_test w (init w))) in
  fst (run_comprehensive_test w (init w)) = Ok true /\
  map (fun r => fst (fst r))
      (filter (fun r => py_in (fst (fst r)) critical_names) rs)
  = [u "Node.js 安装"; u "pnpm 安装"; u "项目目录"] /\
  critical_checks rs = [true; true; true] /\
  announced w = Some READY /\
  exit_status w = 0%Z /\
  spec_verdict rs = PARTIAL.
Proof. vm_compute. repeat split; reflexivity. Qed.

(** Where all five critical checks are recorded the two rules agree. *)
Example verdicts_agree_when_all_recorded :
  verdict (run_results colab_ready) = READY /\
  spec_verdict (run_results colab_ready) = READY /\
  verdict (run_results colab_bare) = NOT_CONFIGURED /\
  spec_verdict (run_results colab_bare) = NOT_CONFIGURED.
Proof. vm_compute. repeat split; reflexivity. Qed.

(** ** The disk-space check *)

(** C2, at a machine whose [df] exits with status 1: the disk-space block
    returns without recording anything, and the finished run has no
    disk-space entry at all. *)
Theorem failed_disk_probe_unrecorded :
  let w := colab_df_fails in
  spawn w (cwd (init w)) df_command None = Ok (1%Z, []) /\
  fst (check_disk_space w (init w)) = Ok tt /\
  results (snd (check_disk_space w (init w))) = [] /\
  fst (main w (init w)) = Ok 0%Z /\
  existsb (fun r => eqb (fst (fst r)) (u "磁盘空间"))
          (results (snd (main w (init w)))) = false.
Proof. vm_compute. repeat split; reflexivity. Qed.

(** The block records at most one result; it records none exactly when
    [df] returned and its status or its output did not fit. *)
Lemma disk_results_cases w d :
  match spawn w d df_command None with
  | Raise _ => disk_results w d = [(u "磁盘空间", false, u "无法获取磁盘信息")]
  | Ok (returncode, out) =>
      let fields := split (nth 1 (split_on LF (strip out)) []) in
      if ((returncode =? 0)%Z && (1 <? length (split_on LF (strip out)))
          && (3 <? length fields))%bool
      then disk_results w d
           = [(u "磁盘空间", true,
               u "已用: " ++ nth 2 fields [] ++ u ", 可用: " ++ nth 3 fields [])]
      else disk_results w d = []
  end.
Proof.
  unfold disk_results. destruct (spawn w d df_command None) as [[rc out]|e].
  - destruct (rc =? 0)%Z; cbn [andb]; [|reflexivity].
    destruct (1 <? length (split_on LF (strip out))); cbn [andb];
      [|reflexivity].
    destruct (3 <? length (split (nth 1 (split_on LF (strip out)) [])));
      reflexivity.
  - reflexivity.
Qed.

(** ** The success rate in a run *)

(** The division of the summary has no guard: the summary of a checker
    with no recorded check raises. *)
Lemma summary_without_checks_raises :
  passed (init colab_bare) + failed (init colab_bare) = 0 /\
  fst (print_summary colab_bare (init colab_bare)) = Raise zero_division.
Proof. vm_compute. split; reflexivity. Qed.

Lemma run_all_checks_some_checked w :
  triple (fun _ => True) (run_all_checks w) (fun _ => some_checked)
         (fun _ _ => True).
Proof.
  pose proof some_checked_io as Hio. pose proof some_checked_record as Hrec.
  assert (HX : forall n desc, stdout_write w n = Some desc ->
                 (fun _ : exn => True) (mkExn OtherException desc)) by auto.
  assert (Hcwd : forall s d, some_checked s -> some_checked (set_cwd d s))
    by (intros s d Hs; exact Hs).
  unfold run_all_checks.
  eapply triple_bind with (R := fun _ _ => True).
  { intros s _. unfold print. destruct (stdout_write w _); cbn; auto. }
  intros ?. eapply triple_bind with (R := fun _ _ => True).
  { intros s _. unfold print. destruct (stdout_write w _); cbn; auto. }
  intros ?. eapply triple_bind with (R := fun _ => some_checked).
  { eapply triple_weaken;
      [apply check_system_info_some_checked | auto | auto | auto]. }
  intros ?. apply keeps_loosely with (X := fun _ => True).
  simple apply keeps_bind;
    [apply keeps_check_node_environment; assumption | intros ?].
  simple apply keeps_bind;
    [apply keeps_check_aeonsage_installation; assumption | intros ?].
  apply keeps_check_network_connectivity; assumption.
Qed.

(** The success rate raises exactly when no check was recorded and is
    [passed / (passed + failed) * 100] otherwise; the summary of a run is
    only reached with at least one check recorded, so there the rate is
    defined and no run of the script ends in a division by zero. *)
Lemma success_rate_defined_in_runs (w : world) :
  (forall p f s,
      fst (success_rate p f s)
      = if Nat.eqb (p + f) 0 then Raise zero_division
        else Ok (inject_Z (Z.of_nat p) / inject_Z (Z.of_nat (p + f))
                 * inject_Z 100)%Q) /\
  (forall s', run_all_checks w (init w) = (Ok tt, s') ->
      1 <= passed s' + failed s' /\
      exists rate, fst (success_rate (passed s') (failed s') s') = Ok rate) /\
  match fst (main w (init w)) with
  | Ok _ => True
  | Raise e => class_of e <> ZeroDivisionError
  end.
Proof.
  split; [|split].
  - intros p f s. unfold success_rate. destruct (Nat.eqb (p + f) 0); reflexivity.
  - intros s' H. pose proof (run_all_checks_some_checked w (init w) Logic.I) as Hc.
    rewrite H in Hc. unfold some_checked in Hc. split; [exact Hc|].
    unfold success_rate.
    destruct (Nat.eqb_spec (passed s' + failed s') 0) as [E|E]; [lia|].
    eexists. reflexivity.
  - pose proof (main_never_divides_by_zero w (init w) Logic.I) as Hm.
    destruct (main w (init w)) as [[a|e] s1]; cbn; auto.
Qed.

(** ** The probe runner *)

Lemma lstrip_spec s :
  exists l, s = l ++ lstrip s /\ all_space l = true /\
            starts_with_space (lstrip s) = false.
Proof.
  induction s as [|c r (l & Hl & Hs & Hn)].
  - exists []. auto.
  - cbn [lstrip]. destruct (is_space c) eqn:Hc.
    + exists (c :: l). cbn [app all_space forallb]. rewrite Hc.
      fold (all_space l). rewrite Hs, <- Hl. auto.
    + exists []. cbn [app all_space forallb starts_with_space]. auto.
Qed.

Lemma all_space_rev l : all_space (rev l) = all_space l.
Proof.
  unfold all_space. destruct (forallb is_space l) eqn:H.
  - apply forallb_forall. intros x Hx. apply in_rev in Hx.
    rewrite forallb_forall in H. auto.
  - destruct (forallb is_space (rev l)) eqn:H'; [|reflexivity].
    rewrite <- H. symmetry. apply forallb_forall. intros x Hx.
    rewrite forallb_forall in H'. apply H'. now apply in_rev in Hx.
Qed.

Lemma rstrip_spec s :
  exists t, s = rstrip s ++ t /\ all_space t = true /\
            ends_with_space (rstrip s) = false.
Proof.
  destruct (lstrip_spec (rev s)) as (l & Hl & Hs & Hn).
  exists (rev l). unfold rstrip, ends_with_space. rewrite rev_involutive.
  repeat split; auto.
  - rewrite <- rev_app_distr, <- Hl. now rewrite rev_involutive.
  - now rewrite all_space_rev.
Qed.

(** [strip] removes a run of whitespace at each end and nothing else, and
    what is left neither starts nor ends with whitespace. *)
Lemma strip_spec s :
  exists l t, s = l ++ strip s ++ t /\
              all_space l = true /\ all_space t = true /\
              starts_with_space (strip s) = false /\
              ends_with_space (strip s) = false.
Proof.
  destruct (lstrip_spec s) as (l & Hl & Hsl & Hnl).
  destruct (rstrip_spec (lstrip s)) as (t & Ht & Hst & Hnt).
  exists l, t. unfold strip. repeat split; auto.
  - now rewrite <- Ht.
  - destruct (rstrip (lstrip s)) as [|c r] eqn:E; [reflexivity|].
    rewrite Ht in Hnl. exact Hnl.
Qed.

(** C4, as stated, fails: output that starts with blanks loses them. *)
Lemma run_command_strips_leading_whitespace :
  let w := colab_indented_version in
  let command := [u "node"; u "--version"] in
  spawn w (cwd (init w)) command (Some 30%N)
  = Ok (0%Z, u "  v20.11.0" ++ [LF]) /\
  fst (run_command w command (init w)) = Ok (true, u "v20.11.0") /\
  rstrip (u "  v20.11.0" ++ [LF]) = u "  v20.11.0" /\
  fst (run_command w command (init w))
  <> Ok (true, rstrip (u "  v20.11.0" ++ [LF])).
Proof. vm_compute. repeat split; try reflexivity. discriminate. Qed.

(** C4, amended: for every command, on normal exit the probe runner
    returns whether the exit status is 0 together with the captured
    standard output trimmed of whitespace at both ends; on timeout it
    returns failure with the fixed timeout message; on any other launch
    failure it returns failure with a message that embeds the description
    of the failure. *)
Theorem run_command_outcomes (w : world) (command : list pystr) (s : state) :
  match spawn w (cwd s) command (Some 30%N) with
  | Ok (returncode, out) =>
      fst (run_command w command s) = Ok ((returncode =? 0)%Z, strip out) /\
      exists l t, out = l ++ strip out ++ t /\
                  all_space l = true /\ all_space t = true /\
                  starts_with_space (strip out) = false /\
                  ends_with_space (strip out) = false
  | Raise e =>
      match class_of e with
      | TimeoutExpired =>
          fst (run_command w command s) = Ok (false, u "命令执行超时")
      | _ =>
          fst (run_command w command s)
          = Ok (false, u "执行错误: " ++ str_exn e)
      end
  end.
Proof.
  rewrite run_command_eq. unfold probe. cbn [fst].
  destruct (spawn w (cwd s) command (Some 30%N)) as [[rc out]|e].
  - split; [reflexivity | apply strip_spec].
  - destruct (class_of e); reflexivity.
Qed.

(** ** The installation group *)

Lemma print_quiet w l s :
  quiet w -> print w l s = (Ok tt, set_stdout (fun out => out ++ [l]) s).
Proof. intros Hq. unfold print. now rewrite Hq. Qed.

Lemma log_result_quiet w n b m s :
  quiet w ->
  log_result w n b m s
  = (Ok tt,
     set_stdout (fun out => out ++ [Text ((if b then u "✓" else u "✗")
                                          ++ u " " ++ n ++ u ": " ++ m)])
                (record (n, b, m) s)).
Proof. intros Hq. rewrite log_result_eq. now apply print_quiet. Qed.



Lemma disk_results_shape w d :
  disk_results w d = [] \/
  exists b m, disk_results w d = [(u "磁盘空间", b, m)].
Proof.
  pose proof (disk_results_cases w d) as H.
  destruct (spawn w d df_command None) as [[rc out]|e].
  - cbv zeta in H. destruct (_ && _ && _)%bool; [right | left]; eauto.
  - right. eauto.
Qed.

Lemma print_summary_quiet w s :
  quiet w -> some_checked s ->
  exists b s', print_summary w s = (Ok b, s').
Proof.
  intros Hq Hs.
  assert (H : keeps some_checked (fun _ => False) (print_summary w)).
  { apply keeps_print_summary.
    - apply some_checked_io.
    - intros n desc Hw. rewrite Hq in Hw. discriminate.
    - intros s0 Hs0 Hz. unfold some_checked in Hs0. lia. }
  specialize (H s Hs). destruct (print_summary w s) as [[b|e] s'].
  - eauto.
  - destruct H as [_ []].
Qed.

(** A run in which every line can be written gets to its verdict, having
    recorded [run_results]. *)
Lemma run_comprehensive_test_quiet w :
  quiet w ->
  exists s', run_comprehensive_test w (init w)
             = (Ok (all (critical_checks (run_results w))), s') /\
             results s' = run_results w.
Proof.
  intros Hq.
  destruct (runs_from_run_all_checks w Hq (init w) eq_refl)
    as [s1 (H1 & H2 & H3)].
  cbn in H2.
  pose proof (run_all_checks_some_checked w (init w) Logic.I) as Hc.
  rewrite H1 in Hc.
  destruct (print_summary_quiet w s1 Hq Hc) as (b & s' & Hp).
  pose proof (print_summary_verdict w (results s1) s1 eq_refl) as Hv.
  rewrite Hp in Hv. destruct Hv as (Hr & Hb & _).
  exists s'. unfold run_comprehensive_test, bind. rewrite H1, Hp.
  rewrite Hr, Hb, H2. auto.
Qed.

(** C8: when the project directory is absent, the installation group
    records the failed directory check and nothing else; the finished run
    has no manifest, dependency, build or CLI entry; and when the runtime
    and the package manager are missing too, the last line the run writes
    is the NOT_CONFIGURED message, [main] returns 1 and, the final flush
    succeeding, the process exits with status 1. *)
Theorem project_absent_not_configured (w : world) :
  quiet w ->
  exit_flush_fails w = false ->
  project_exists w (initial_cwd w) = false ->
  fst (probe w (initial_cwd w) [u "node"; u "--version"]) = false ->
  fst (probe w (initial_cwd w) [u "pnpm"; u "--version"]) = false ->
  installation_results w (initial_cwd w) = [(u "项目目录", false, u "未找到")] /\
  (forall s, cwd s = initial_cwd w ->
     fst (check_aeonsage_installation w s) = Ok tt /\
     results (snd (check_aeonsage_installation w s))
     = results s ++ [(u "项目目录", false, u "未找到")]) /\
  existsb (fun r => py_in (fst (fst r))
                      [u "package.json"; u "依赖安装"; u "构建输出";
                       u "CLI 工具"; u "CLI 帮助"])
          (results (snd (run_comprehensive_test w (init w)))) = false /\
  critical_checks (results (snd (run_comprehensive_test w (init w))))
  = [false; false; false] /\
  fst (run_comprehensive_test w (init w)) = Ok false /\
  last (stdout (snd (run_comprehensive_test w (init w)))) (Text [])
  = Text msg_not_configured /\
  announced w = Some NOT_CONFIGURED /\
  fst (main w (init w)) = Ok 1%Z /\
  exit_status w = 1%Z.
Proof.
  intros Hq Hflush Hproj Hnode Hpnpm.
  assert (Hinst : installation_results w (initial_cwd w)
                  = [(u "项目目录", false, u "未找到")]).
  { unfold installation_results. now rewrite Hproj. }
  destruct (run_comprehensive_test_quiet w Hq) as (s' & Hrun & Hres).
  assert (Hcrit : critical_checks (run_results w) = [false; false; false] /\
                  existsb (fun r => py_in (fst (fst r))
                      [u "package.json"; u "依赖安装"; u "构建输出";
                       u "CLI 工具"; u "CLI 帮助"]) (run_results w) = false).
  { unfold run_results. rewrite Hinst.
    unfold system_info_results, node_environment_results, network_results,
      tool_result, probe_result.
    destruct (probe w (initial_cwd w) [u "node"; u "--version"]) as [b1 v1].
    destruct (probe w (initial_cwd w) [u "pnpm"; u "--version"]) as [b2 v2].
    cbn [fst] in Hnode, Hpnpm. subst b1 b2.
    repeat match goal with
           | |- context [probe w ?d ?c] => destruct (probe w d c) as [? ?]
           end.
    destruct (disk_results_shape w (initial_cwd w)) as [-> | (bd & md & ->)];
      vm_compute; split; reflexivity. }
  destruct Hcrit as [Hcrit Hnone].
  rewrite Hcrit in Hrun. cbn [all forallb andb] in Hrun.
  assert (Hverdict : verdict (results s') = NOT_CONFIGURED).
  { rewrite Hres. unfold verdict. now rewrite Hcrit. }
  assert (Hmain : main w (init w)
                  = (Ok 1%Z,
                     set_stdout (fun out => out ++ remediation_lines) s')).
  { unfold main, bind. rewrite Hrun. cbn [negb].
    rewrite !(print_quiet w _ _ Hq). unfold ret, set_stdout.
    cbn [results passed failed cwd stdout invoked remediation_lines].
    rewrite <- !app_assoc. reflexivity. }
  split; [exact Hinst | split].
  - intros s Hs.
    destruct (runs_from_check_aeonsage_installation w Hq (initial_cwd w) s Hs)
      as [s1 (H1 & H2 & H3)].
    rewrite H1. cbn [fst snd]. rewrite H2, Hinst. auto.
  - rewrite Hrun. cbn [fst snd]. rewrite Hres, Hcrit.
    repeat split; auto.
    + destruct (run_comprehensive_test_verdict w (init w) false s' Hrun)
        as [_ Hl].
      rewrite Hl, Hverdict. reflexivity.
    + rewrite (announced_verdict w false s' Hrun). now rewrite Hverdict.
    + now rewrite Hmain.
    + unfold exit_status. now rewrite Hflush, Hmain.
Qed.

Lemma project_absent_not_configured_witness :
  let w := colab_bare in
  (quiet w /\
   exit_flush_fails w = false /\
   project_exists w (initial_cwd w) = false /\
   fst (probe w (initial_cwd w) [u "node"; u "--version"]) = false /\
   fst (probe w (initial_cwd w) [u "pnpm"; u "--version"]) = false) /\
  (installation_results w (initial_cwd w) = [(u "项目目录", false, u "未找到")] /\
   (forall s, cwd s = initial_cwd w ->
      fst (check_aeonsage_installation w s) = Ok tt /\
      results (snd (check_aeonsage_installation w s))
      = results s ++ [(u "项目目录", false, u "未找到")]) /\
   existsb (fun r => py_in (fst (fst r))
                       [u "package.json"; u "依赖安装"; u "构建输出";
                        u "CLI 工具"; u "CLI 帮助"])
           (results (snd (run_comprehensive_test w (init w)))) = false /\
   critical_checks (results (snd (run_comprehensive_test w (init w))))
   = [false; false; false] /\
   fst (run_comprehensive_test w (init w)) = Ok false /\
   last (stdout (snd (run_comprehensive_test w (init w)))) (Text [])
   = Text msg_not_configured /\
   announced w = Some NOT_CONFIGURED /\
   fst (main w (init w)) = Ok 1%Z /\
   exit_status w = 1%Z).
Proof.
  assert (H : quiet colab_bare /\
              exit_flush_fails colab_bare = false /\
              project_exists colab_bare (initial_cwd colab_bare) = false /\
              fst (probe colab_bare (initial_cwd colab_bare)
                     [u "node"; u "--version"]) = false /\
              fst (probe colab_bare (initial_cwd colab_bare)
                     [u "pnpm"; u "--version"]) = false).
  { split; [intros n; reflexivity | vm_compute; repeat split; reflexivity]. }
  split; [exact H|].
  destruct H as (H1 & H2 & H3 & H4 & H5).
  exact (project_absent_not_configured colab_bare H1 H2 H3 H4 H5).
Defined.

(** C9: when [df] exits with status 0 and the second line of its trimmed
    output is [/dev/sda1 50G 20G 28G 42% /], the disk-space block records
    one passing result whose message is built from fields 2 and 3 of that
    line: [已用: 20G, 可用: 28G]. *)
Theorem disk_space_scenario (w : world) (s : state) (out : pystr) :
  spawn w (cwd s) df_command None = Ok (0%Z, out) ->
  nth_error (split_on LF (strip out)) 1 = Some disk_row ->
  stdout_write w (length (stdout s)) = None ->
  nth_error (split disk_row) 2 = Some (u "20G") /\
  nth_error (split disk_row) 3 = Some (u "28G") /\
  fst (check_disk_space w s) = Ok tt /\
  results (snd (check_disk_space w s))
  = results s ++ [(u "磁盘空间", true, u "已用: 20G, 可用: 28G")].
Proof.
  intros Hdf Hrow Hwrite.
  split; [vm_compute; reflexivity | split; [vm_compute; reflexivity |]].
  assert (Hlen : (1 <? length (split_on LF (strip out))) = true).
  { apply Nat.ltb_lt. apply nth_error_Some. rewrite Hrow. discriminate. }
  assert (Hnth : nth 1 (split_on LF (strip out)) [] = disk_row).
  { apply nth_error_nth. exact Hrow. }
  unfold check_disk_space, try_except, bind, subprocess_run.
  rewrite Hdf. cbn [fst snd]. rewrite Hlen, Hnth.
  change (3 <? length (split disk_row)) with true. cbv iota.
  change (nth 2 (split disk_row) []) with (u "20G").
  change (nth 3 (split disk_row) []) with (u "28G").
  change (0 =? 0)%Z with true. cbv iota.
  rewrite log_result_eq. unfold print. cbn [stdout record set_invoked].
  rewrite Hwrite.
  cbn. split; reflexivity.
Qed.

Lemma disk_space_scenario_witness :
  let w := colab_ready in
  let s := init w in
  nth_error (split disk_row) 2 = Some (u "20G") /\
  nth_error (split disk_row) 3 = Some (u "28G") /\
  fst (check_disk_space w s) = Ok tt /\
  results (snd (check_disk_space w s))
  = results s ++ [(u "磁盘空间", true, u "已用: 20G, 可用: 28G")].
Proof.
  apply (disk_space_scenario colab_ready (init colab_ready) df_output).
  - vm_compute. reflexivity.
  - vm_compute. reflexivity.
  - vm_compute. reflexivity.
Defined.

(** ** Where the verdict differs from the rule with missing-as-failed *)

Ltac split_probes w :=
  repeat match goal with
         | |- context [probe w ?d ?c] => destruct (probe w d c) as [[|] ?]
         end.

(** Unless the project directory exists without a manifest, the verdict
    of a run is the one the rule with missing-as-failed gives. *)
Lemma verdict_agrees_with_spec_rule w :
  (project_exists w (initial_cwd w) = true ->
   path_exists w ((initial_cwd w ++ [u "aeonsage"]) ++ [u "package.json"])
   = true) ->
  verdict (run_results w) = spec_verdict (run_results w).
Proof.
  intros Hpkg.
  unfold run_results, system_info_results, node_environment_results,
    installation_results, project_contents_results, network_results,
    tool_result, probe_result.
  destruct (project_exists w (initial_cwd w)).
  - rewrite (Hpkg eq_refl).
    destruct (path_exists w ((initial_cwd w ++ [u "aeonsage"])
                             ++ [u "node_modules"]));
      destruct (path_exists w ((initial_cwd w ++ [u "aeonsage"])
                               ++ [u "dist"]));
      split_probes w;
      (destruct (disk_results_shape w (initial_cwd w))
         as [-> | (bd & md & ->)]; vm_compute; reflexivity).
  - split_probes w;
      (destruct (disk_results_shape w (initial_cwd w))
         as [-> | (bd & md & ->)]; vm_compute; reflexivity).
Qed.

(** With the project directory and no manifest, that rule gives PARTIAL,
    and the run announces READY as soon as the runtime and the package
    manager are installed. *)
Lemma verdict_without_manifest w :
  project_exists w (initial_cwd w) = true ->
  path_exists w ((initial_cwd w ++ [u "aeonsage"]) ++ [u "package.json"])
  = false ->
  spec_verdict (run_results w) = PARTIAL /\
  verdict (run_results w)
  = if fst (probe w (initial_cwd w) [u "node"; u "--version"])
       && fst (probe w (initial_cwd w) [u "pnpm"; u "--version"])
    then READY else PARTIAL.
Proof.
  intros Hproj Hpkg.
  unfold run_results, system_info_results, node_environment_results,
    installation_results, project_contents_results, network_results,
    tool_result, probe_result.
  rewrite Hproj, Hpkg.
  split_probes w;
    (destruct (disk_results_shape w (initial_cwd w))
       as [-> | (bd & md & ->)]; vm_compute; split; reflexivity).
Qed.

(** ** The three ways out of the installation group *)

(** Early return, normal completion after two commands run inside the
    project directory, and an exception raised while the process is inside
    it: each time the process ends where it started. *)
Example installation_group_exit_paths :
  (let w := colab_bare in
   fst (check_aeonsage_installation w (init w)) = Ok tt /\
   invoked (snd (check_aeonsage_installation w (init w))) = [] /\
   cwd (snd (check_aeonsage_installation w (init w))) = [u "content"]) /\
  (let w := colab_ready in
   fst (check_aeonsage_installation w (init w)) = Ok tt /\
   invoked (snd (check_aeonsage_installation w (init w)))
   = [(project, [u "pnpm"; u "aeonsage"; u "--version"]);
      (project, [u "pnpm"; u "aeonsage"; u "--help"])] /\
   cwd (snd (check_aeonsage_installation w (init w))) = [u "content"]) /\
  (let w := colab_broken_pipe 5 in
   fst (check_aeonsage_installation w (init w))
   = Raise (mkExn OtherException (u "[Errno 32] Broken pipe")) /\
   invoked (snd (check_aeonsage_installation w (init w)))
   = [(project, [u "pnpm"; u "aeonsage"; u "--version"])] /\
   cwd (snd (check_aeonsage_installation w (init w))) = [u "content"]).
Proof. vm_compute. repeat split; reflexivity. Qed.


(** ** What each group records and spawns *)


Lemma performs_bind {A B} d (m : M A) (k : A -> M B)
    a xs cs b ys ds added spawned :
  performs d m a xs cs ->
  performs d (k a) b ys ds ->
  added = xs ++ ys ->
  spawned = cs ++ ds ->
  performs d (bind m k) b added spawned.
Proof.
  intros Hm Hk -> -> s Hs.
  destruct (Hm s Hs) as (s1 & H1 & R1 & I1 & C1).
  destruct (Hk s1 C1) as (s2 & H2 & R2 & I2 & C2).
  exists s2. unfold bind. rewrite H1, H2, R2, R1, I2, I1, !app_assoc. auto.
Qed.

Section QuietGroups.

Variable w : world.
Hypothesis Hq : quiet w.

Lemma performs_print d l : performs d (print w l) tt [] [].
Proof.
  intros s Hs. eexists. rewrite (print_quiet w l s Hq). cbn.
  rewrite !app_nil_r. auto.
Qed.

Lemma performs_log_result d n b m :
  performs d (log_result w n b m) tt [(n, b, m)] [].
Proof.
  intros s Hs. eexists. rewrite (log_result_quiet w n b m s Hq). cbn.
  rewrite !app_nil_r. auto.
Qed.

Lemma performs_run_command d c :
  performs d (run_command w c) (probe w d c) [] [(d, c)].
Proof.
  intros s <-. eexists. rewrite run_command_eq. cbn.
  rewrite !app_nil_r. auto.
Qed.



Ltac seq tac := eapply performs_bind; [tac | | reflexivity | reflexivity].

Lemma performs_check_tool d n c :
  performs d (check_tool w n c) tt [tool_result w d n c] [(d, c)].
Proof.
  unfold check_tool, tool_result. seq ltac:(apply performs_run_command).
  destruct (probe w d c) as [success version]. apply performs_log_result.
Qed.

Lemma performs_check_probe d n c good bad :
  performs d (check_probe w n c good bad) tt
           [probe_result w d n c good bad] [(d, c)].
Proof.
  unfold check_probe, probe_result. seq ltac:(apply performs_run_command).
  destruct (probe w d c) as [success out]. apply performs_log_result.
Qed.

Lemma performs_check_disk_space d :
  performs d (check_disk_space w) tt (disk_results w d) [(d, df_command)].
Proof.
  intros s <-.
  unfold check_disk_space, disk_results, try_except, bind, subprocess_run.
  destruct (spawn w (cwd s) df_command None) as [[rc out]|e].
  - cbn [fst snd].
    destruct (rc =? 0)%Z;
      [destruct (1 <? length (split_on LF (strip out)));
       [destruct (3 <? length (split (nth 1 (split_on LF (strip out)) [])))|]|];
      try (eexists; unfold ret; cbn; rewrite app_nil_r; auto; fail).
    rewrite (log_result_quiet w _ _ _ _ Hq). eexists. cbn. auto.
  - rewrite (log_result_quiet w _ _ _ _ Hq). eexists. cbn. auto.
Qed.

Lemma performs_check_system_info d :
  performs d (check_system_info w) tt (system_info_results w d)
           [(d, df_command)].
Proof.
  unfold check_system_info, system_info_results.
  seq ltac:(apply performs_print).
  do 4 seq ltac:(apply performs_log_result).
  apply performs_check_disk_space.
Qed.

Lemma performs_check_node_environment d :
  performs d (check_node_environment w) tt (node_environment_results w d)
           (map (fun t => (d, [snd t; u "--version"])) version_tools).
Proof.
  unfold check_node_environment, node_environment_results.
  seq ltac:(apply performs_print).
  do 3 seq ltac:(apply performs_check_tool).
  apply performs_check_tool.
Qed.

Lemma performs_check_network_connectivity d :
  performs d (check_network_connectivity w) tt (network_results w d)
           (map (fun c => (d, c)) network_commands).
Proof.
  unfold check_network_connectivity, network_results.
  seq ltac:(apply performs_print).
  do 2 seq ltac:(apply performs_check_probe).
  apply performs_check_probe.
Qed.




End QuietGroups.

Lemma tool_result_entry w d n c :
  tool_result w d n c = command_entry w d n c (fun v => v) (u "未安装").
Proof.
  unfold tool_result, command_entry, probe.
  destruct (spawn w d c (Some 30%N)) as [[rc out]|e].
  - reflexivity.
  - destruct (class_of e); reflexivity.
Qed.

Lemma probe_result_entry w d n c good bad :
  probe_result w d n c good bad = command_entry w d n c (fun _ => good) bad.
Proof.
  unfold probe_result, command_entry, probe.
  destruct (spawn w d c (Some 30%N)) as [[rc out]|e].
  - reflexivity.
  - destruct (class_of e); reflexivity.
Qed.

(** X3: the runtime group records four results, for node, npm, pnpm and
    git in this order, after running [<tool> --version] for each in the
    current directory.  A check passes when its command exits with status
    0, with the trimmed output as message; otherwise, whatever went wrong,
    the message is the fixed "not installed" text. *)
Theorem node_environment_checks (w : world) (s : state) :
  quiet w ->
  fst (check_node_environment w s) = Ok tt /\
  results (snd (check_node_environment w s))
  = results s
    ++ map (fun t => command_entry w (cwd s) (fst t) [snd t; u "--version"]
                                   (fun version => version) (u "未安装"))
           version_tools /\
  invoked (snd (check_node_environment w s))
  = invoked s ++ map (fun t => (cwd s, [snd t; u "--version"])) version_tools /\
  cwd (snd (check_node_environment w s)) = cwd s.
Proof.
  intros Hq.
  destruct (performs_check_node_environment w Hq (cwd s) s eq_refl)
    as (s' & H & Hr & Hi & Hc).
  rewrite H. cbn [fst snd]. rewrite Hr, Hi, Hc.
  unfold node_environment_results. rewrite !tool_result_entry. auto.
Qed.

Lemma node_environment_checks_witness :
  let w := colab_ready in
  let s := init w in
  fst (check_node_environment w s) = Ok tt /\
  results (snd (check_node_environment w s))
  = results s
    ++ map (fun t => command_entry w (cwd s) (fst t) [snd t; u "--version"]
                                   (fun version => version) (u "未安装"))
           version_tools /\
  invoked (snd (check_node_environment w s))
  = invoked s ++ map (fun t => (cwd s, [snd t; u "--version"])) version_tools /\
  cwd (snd (check_node_environment w s)) = cwd s.
Proof.
  apply (node_environment_checks colab_ready (init colab_ready)).
  intros n. reflexivity.
Defined.

(** X4: the network group records three results, for ping, curl and
    [npm ping] in this order.  Each passes when its command exits with
    status 0; the message is one of two fixed texts and never contains what
    the command printed or why it failed. *)
Theorem network_checks (w : world) (s : state) :
  quiet w ->
  fst (check_network_connectivity w s) = Ok tt /\
  results (snd (check_network_connectivity w s))
  = results s
    ++ map (fun p => let '(test_name, command, good, bad) := p in
                     command_entry w (cwd s) test_name command
                                   (fun _ => good) bad)
           network_probes /\
  invoked (snd (check_network_connectivity w s))
  = invoked s ++ map (fun p => (cwd s, snd (fst (fst p)))) network_probes /\
  cwd (snd (check_network_connectivity w s)) = cwd s.
Proof.
  intros Hq.
  destruct (performs_check_network_connectivity w Hq (cwd s) s eq_refl)
    as (s' & H & Hr & Hi & Hc).
  rewrite H. cbn [fst snd]. rewrite Hr, Hi, Hc.
  unfold network_results. rewrite !probe_result_entry. auto.
Qed.

Lemma network_checks_witness :
  let w := colab_bare in
  let s := init w in
  fst (check_network_connectivity w s) = Ok tt /\
  results (snd (check_network_connectivity w s))
  = results s
    ++ map (fun p => let '(test_name, command, good, bad) := p in
                     command_entry w (cwd s) test_name command
                                   (fun _ => good) bad)
           network_probes /\
  invoked (snd (check_network_connectivity w s))
  = invoked s ++ map (fun p => (cwd s, snd (fst (fst p)))) network_probes /\
  cwd (snd (check_network_connectivity w s)) = cwd s.
Proof.
  apply (network_checks colab_bare (init colab_bare)).
  intros n. reflexivity.
Defined.






(** ** What the summary and [main] write *)

Lemma print_detail_row w r s :
  quiet w ->
  print_detail w r s = (Ok tt, set_stdout (fun out => out ++ [detail_row r]) s).
Proof.
  intros Hq. destruct r as [[n b] m]. unfold print_detail, detail_row.
  apply print_quiet, Hq.
Qed.

Lemma for_each_print_detail w rs s :
  quiet w ->
  for_each rs (print_detail w) s
  = (Ok tt, set_stdout (fun out => out ++ map detail_row rs) s).
Proof.
  intros Hq. revert s. induction rs as [|r rs IH]; intros s.
  - cbn. unfold ret, set_stdout. rewrite app_nil_r. now destruct s.
  - cbn [for_each map]. unfold bind. rewrite (print_detail_row w r s Hq), IH.
    unfold set_stdout. cbn.
    replace ((stdout s ++ [detail_row r]) ++ map detail_row rs)
      with (stdout s ++ detail_row r :: map detail_row rs)
      by (rewrite <- app_assoc; reflexivity).
    reflexivity.
Qed.

Lemma print_summary_writes w s :
  quiet w ->
  0 < passed s + failed s ->
  print_summary w s
  = (Ok (all (critical_checks (results s))),
     set_stdout (fun out => out ++ summary_lines s) s).
Proof.
  intros Hq Hpos.
  assert (Hz : Nat.eqb (passed s + failed s) 0 = false)
    by (apply Nat.eqb_neq; lia).
  unfold print_summary, bind, get.
  rewrite (print_quiet w _ _ Hq). cbn [passed failed set_stdout].
  rewrite (print_quiet w _ _ Hq). unfold success_rate. rewrite Hz.
  unfold ret at 1. rewrite (print_quiet w _ _ Hq).
  rewrite (print_quiet w _ _ Hq). cbn [results set_stdout].
  rewrite (for_each_print_detail w _ _ Hq).
  rewrite (print_quiet w _ _ Hq). cbn [results set_stdout].
  unfold summary_lines, verdict, rate_of.
  destruct (all (critical_checks (results s)));
    [|destruct (any (critical_checks (results s)))];
    rewrite (print_quiet w _ _ Hq); unfold ret, set_stdout;
    cbn [results passed failed cwd stdout invoked verdict_message];
    rewrite <- !app_assoc; reflexivity.
Qed.

(** X7: when every line can be written and at least one check has been
    recorded, the summary writes, in this order: the separator, the totals,
    the success rate [passed / (passed + failed) * 100], the table header,
    one row per recorded result in recording order, the verdict header and
    the message of the verdict.  It changes nothing else and returns
    whether every recorded critical check passed. *)
Theorem summary_output (w : world) (s : state) :
  quiet w ->
  0 < passed s + failed s ->
  fst (print_summary w s) = Ok (all (critical_checks (results s))) /\
  snd (print_summary w s) = set_stdout (fun out => out ++ summary_lines s) s /\
  length (summary_lines s) = 6 + length (results s) /\
  (forall i r, nth_error (results s) i = Some r ->
               nth_error (summary_lines s) (4 + i) = Some (detail_row r)).
Proof.
  intros Hq Hpos. rewrite (print_summary_writes w s Hq Hpos).
  repeat split.
  - unfold summary_lines. rewrite !length_app, length_map. cbn. lia.
  - intros i r Hr. unfold summary_lines. cbn [app nth_error Nat.add].
    rewrite nth_error_app1.
    + now rewrite nth_error_map, Hr.
    + rewrite length_map. apply nth_error_Some. now rewrite Hr.
Qed.

Lemma summary_output_witness :
  let w := colab_bare in
  let s := snd (run_all_checks w (init w)) in
  fst (print_summary w s) = Ok (all (critical_checks (results s))) /\
  snd (print_summary w s) = set_stdout (fun out => out ++ summary_lines s) s /\
  length (summary_lines s) = 6 + length (results s) /\
  (forall i r, nth_error (results s) i = Some r ->
               nth_error (summary_lines s) (4 + i) = Some (detail_row r)).
Proof.
  apply (summary_output colab_bare
           (snd (run_all_checks colab_bare (init colab_bare)))).
  - intros n. reflexivity.
  - vm_compute. lia.
Defined.






(** ** Edge cases *)

(** X10: the passing disk-space result is recorded inside the [try]
    block.  If its line cannot be written, the bare [except] takes the
    write error for a failed probe: the check is recorded a second time as
    failed, so one disk probe leaves two contradicting entries, each
    counted. *)
Theorem disk_space_recorded_twice (w : world) (s : state) (out desc : pystr) :
  let fields := split (nth 1 (split_on LF (strip out)) []) in
  spawn w (cwd s) df_command None = Ok (0%Z, out) ->
  (1 <? length (split_on LF (strip out))) = true ->
  (3 <? length fields) = true ->
  stdout_write w (length (stdout s)) = Some desc ->
  results (snd (check_disk_space w s))
  = results s
    ++ [(u "磁盘空间", true,
         u "已用: " ++ nth 2 fields [] ++ u ", 可用: " ++ nth 3 fields []);
        (u "磁盘空间", false, u "无法获取磁盘信息")] /\
  passed (snd (check_disk_space w s)) = passed s + 1 /\
  failed (snd (check_disk_space w s)) = failed s + 1.
Proof.
  intros fields Hdf Hlines Hfields Hwrite. subst fields.
  unfold check_disk_space, try_except, bind, subprocess_run.
  rewrite Hdf. cbn [fst snd]. change (0 =? 0)%Z with true. cbv iota.
  rewrite Hlines, Hfields.
  rewrite log_result_eq.
  match goal with
  | |- context [print w ?l ?st] =>
      set (s1 := st); assert (Hs1 : stdout s1 = stdout s) by reflexivity
  end.
  assert (Hprint : forall l, print w l s1
                             = (Raise (mkExn OtherException desc), s1)).
  { intros l. unfold print. now rewrite Hs1, Hwrite. }
  rewrite !Hprint.
  destruct (log_result_fields w (u "磁盘空间") false (u "无法获取磁盘信息") s1)
    as (Hr & Hp & Hf).
  rewrite Hr, Hp, Hf. subst s1. cbn [results passed failed record
                                     set_invoked fst snd].
  rewrite <- app_assoc. cbn [app]. repeat split; lia.
Qed.

Lemma disk_space_recorded_twice_witness :
  let w := colab_broken_pipe 0 in
  let s := init w in
  let fields := split (nth 1 (split_on LF (strip df_output)) []) in
  results (snd (check_disk_space w s))
  = results s
    ++ [(u "磁盘空间", true,
         u "已用: " ++ nth 2 fields [] ++ u ", 可用: " ++ nth 3 fields []);
        (u "磁盘空间", false, u "无法获取磁盘信息")] /\
  passed (snd (check_disk_space w s)) = passed s + 1 /\
  failed (snd (check_disk_space w s)) = failed s + 1.
Proof.
  apply (disk_space_recorded_twice (colab_broken_pipe 0)
           (init (colab_broken_pipe 0)) df_output
           (u "[Errno 32] Broken pipe")).
  - vm_compute. reflexivity.
  - vm_compute. reflexivity.
  - vm_compute. reflexivity.
  - vm_compute. reflexivity.
Defined.

(** ** The success rate as a number *)

Lemma rate_of_frac p f :
  0 < p + f ->
  (rate_of p f == (100 * Z.of_nat p) # Pos.of_nat (p + f))%Q.
Proof.
  intros Hpos. unfold rate_of.
  destruct (p + f) as [|k] eqn:E; [lia|].
  unfold Qeq, Qdiv, Qmult, Qinv, inject_Z. cbn [Qnum Qden Z.of_nat].
  rewrite <- Pos.of_nat_succ, Pos.mul_1_l, Pos.mul_1_r. ring.
Qed.

Lemma passed_at_least_io n : io_insensitive (passed_at_least n).
Proof. split; intros s f Hs; exact Hs. Qed.

Lemma passed_at_least_record n : record_insensitive (passed_at_least n).
Proof.
  intros s [[name b] m]. unfold passed_at_least, record. cbn.
  destruct b; lia.
Qed.

Lemma log_result_passes w n name m :
  triple (passed_at_least n) (log_result w name true m)
         (fun _ => passed_at_least (S n)) (fun _ _ => True).
Proof.
  intros s Hs. rewrite log_result_eq. unfold print.
  destruct (stdout_write w _); [exact Logic.I|].
  unfold passed_at_least in *. cbn. lia.
Qed.

Lemma run_all_checks_three_passed w :
  triple (fun _ => True) (run_all_checks w)
         (fun _ => passed_at_least 3) (fun _ _ => True).
Proof.
  pose proof (passed_at_least_io 3) as Hio.
  pose proof (passed_at_least_record 3) as Hrec.
  assert (HX : forall n desc, stdout_write w n = Some desc ->
                 (fun _ : exn => True) (mkExn OtherException desc)) by auto.
  assert (Hcwd : forall s d, passed_at_least 3 s ->
                             passed_at_least 3 (set_cwd d s))
    by (intros s d Hs; exact Hs).
  assert (Hp : forall l, triple (fun _ => True) (print w l)
                           (fun _ _ => True) (fun _ _ => True)).
  { intros l s _. unfold print. destruct (stdout_write w _); exact Logic.I. }
  unfold run_all_checks.
  eapply triple_bind with (R := fun _ _ => True); [apply Hp | intros ?].
  eapply triple_bind with (R := fun _ _ => True); [apply Hp | intros ?].
  eapply triple_bind with (R := fun _ => passed_at_least 3).
  { unfold check_system_info.
    eapply triple_bind with (R := fun _ => passed_at_least 0).
    { intros s _. unfold print, passed_at_least.
      destruct (stdout_write w _); cbn; auto with arith. }
    intros ?.
    eapply triple_bind; [apply log_result_passes | intros ?].
    eapply triple_bind; [apply log_result_passes | intros ?].
    eapply triple_bind; [apply log_result_passes | intros ?].
    apply keeps_loosely with (X := fun _ => True).
    simple apply keeps_bind; [apply keeps_log_result; assumption | intros ?].
    apply keeps_check_disk_space; assumption. }
  intros ?. apply keeps_loosely with (X := fun _ => True).
  simple apply keeps_bind;
    [apply keeps_check_node_environment; assumption | intros ?].
  simple apply keeps_bind;
    [apply keeps_check_aeonsage_installation; assumption | intros ?].
  apply keeps_check_network_connectivity; assumption.
Qed.

(** X12: the interpreter, platform and architecture checks always count
    as passed, so a run that reaches its verdict has at least three passed
    checks and a success rate above zero, whatever the verdict is. *)
Theorem finished_run_has_passed_checks (w : world) (b : bool) (s' : state) :
  run_comprehensive_test w (init w) = (Ok b, s') ->
  3 <= passed s' /\ (0 < rate_of (passed s') (failed s'))%Q.
Proof.
  intros Hrun.
  assert (H3 : 3 <= passed s').
  { unfold run_comprehensive_test, bind in Hrun.
    pose proof (run_all_checks_three_passed w (init w) Logic.I) as H1.
    destruct (run_all_checks w (init w)) as [[[]|e] s1]; [|discriminate].
    assert (Hk : keeps (passed_at_least 3) (fun _ => True) (print_summary w)).
    { apply keeps_print_summary; auto. apply passed_at_least_io. }
    specialize (Hk s1 H1). rewrite Hrun in Hk. exact Hk. }
  split; [exact H3|].
  rewrite (rate_of_frac (passed s') (failed s')) by lia.
  unfold Qlt. cbn [Qnum Qden]. lia.
Qed.

Lemma finished_run_has_passed_checks_witness :
  let s' := snd (run_comprehensive_test colab_bare (init colab_bare)) in
  3 <= passed s' /\ (0 < rate_of (passed s') (failed s'))%Q.
Proof.
  apply (finished_run_has_passed_checks colab_bare false
           (snd (run_comprehensive_test colab_bare (init colab_bare)))).
  vm_compute. reflexivity.
Defined.

(** ** The verdict as a function of the results *)

Lemma critical_checks_in rs b :
  In b (critical_checks rs) <->
  exists r, In r rs /\ is_critical r = true /\ snd (fst r) = b.
Proof.
  unfold critical_checks. rewrite in_map_iff. split.
  - intros (r & Hb & Hin). apply filter_In in Hin. exists r. tauto.
  - intros (r & Hin & Hc & Hb). exists r. split; [exact Hb|].
    apply filter_In. auto.
Qed.

Lemma all_iff bs : all bs = true <-> forall b, In b bs -> b = true.
Proof. unfold all. rewrite forallb_forall. tauto. Qed.

Lemma any_iff bs : any bs = true <-> In true bs.
Proof.
  unfold any. rewrite existsb_exists. split.
  - intros (b & Hin & ->). exact Hin.
  - intros Hin. exists true. auto.
Qed.

(** X13: the verdict is READY exactly when no recorded critical check
    failed, which includes the case that none was recorded at all; it is
    NOT_CONFIGURED exactly when some critical check was recorded and none
    passed; it is PARTIAL exactly when one passed and one failed. *)
Theorem verdict_cases (rs : list CheckResult) :
  (verdict rs = READY <->
   forall r, In r rs -> is_critical r = true -> snd (fst r) = true) /\
  (verdict rs = NOT_CONFIGURED <->
   (exists r, In r rs /\ is_critical r = true) /\
   forall r, In r rs -> is_critical r = true -> snd (fst r) = false) /\
  (verdict rs = PARTIAL <->
   (exists r, In r rs /\ is_critical r = true /\ snd (fst r) = true) /\
   (exists r, In r rs /\ is_critical r = true /\ snd (fst r) = false)).
Proof.
  assert (Hall : all (critical_checks rs) = true <->
                 forall r, In r rs -> is_critical r = true ->
                           snd (fst r) = true).
  { rewrite all_iff. split.
    - intros H r Hin Hc. apply H. apply critical_checks_in. eauto.
    - intros H b Hb. apply critical_checks_in in Hb.
      destruct Hb as (r & Hin & Hc & <-). auto. }
  assert (Hany : any (critical_checks rs) = true <->
                 exists r, In r rs /\ is_critical r = true
                           /\ snd (fst r) = true).
  { rewrite any_iff. apply critical_checks_in. }
  assert (Hnall : all (critical_checks rs) = false <->
                  exists r, In r rs /\ is_critical r = true
                            /\ snd (fst r) = false).
  { split.
    - intros H. unfold all in H.
      assert (Hex : existsb negb (critical_checks rs) = true).
      { clear -H. induction (critical_checks rs) as [|[|] l IH]; cbn in *;
          auto; discriminate. }
      apply existsb_exists in Hex. destruct Hex as (b & Hb & Hneg).
      apply critical_checks_in in Hb. destruct Hb as (r & Hin & Hc & <-).
      exists r. repeat split; auto. now destruct (snd (fst r)).
    - intros (r & Hin & Hc & Hf).
      destruct (all (critical_checks rs)); [|reflexivity].
      rewrite (proj1 Hall eq_refl r Hin Hc) in Hf. discriminate. }
  unfold verdict.
  destruct (all (critical_checks rs));
    [|destruct (any (critical_checks rs))].
  - split; [|split].
    + split; [intros _; apply Hall; reflexivity | reflexivity].
    + split; [discriminate|]. intros [(r & Hin & Hc) H].
      pose proof (proj1 Hall eq_refl r Hin Hc) as Ht.
      rewrite (H r Hin Hc) in Ht. discriminate.
    + split; [discriminate|]. intros [_ H]. apply Hnall in H. discriminate.
  - split; [|split].
    + split; [discriminate|]. intros H. apply Hall in H. discriminate.
    + split; [discriminate|]. intros [_ H].
      destruct (proj1 Hany eq_refl) as (r & Hin & Hc & Ht).
      rewrite (H r Hin Hc) in Ht. discriminate.
    + split; [intros _|reflexivity]. split.
      * apply Hany. reflexivity.
      * apply Hnall. reflexivity.
  - split; [|split].
    + split; [discriminate|]. intros H. apply Hall in H. discriminate.
    + split; [intros _|reflexivity]. split.
      * destruct (proj1 Hnall eq_refl) as (r & Hin & Hc & _). eauto.
      * intros r Hin Hc. destruct (snd (fst r)) eqn:E; [|reflexivity].
        assert (Hf : false = true) by (apply Hany; eauto).
        discriminate.
    + split; [discriminate|]. intros [H _]. apply Hany in H. discriminate.
Qed.

(** X14: the verdict depends only on which critical entries are among
    the results: two result sequences with the same critical entries get
    the same verdict, whatever their order, their repetitions and their
    other entries. *)
Theorem verdict_depends_on_critical_entries (rs rs' : list CheckResult) :
  (forall r, is_critical r = true -> (In r rs <-> In r rs')) ->
  verdict rs = verdict rs'.
Proof.
  intros H.
  assert (Hin : forall b, In b (critical_checks rs)
                          <-> In b (critical_checks rs')).
  { intros b. rewrite !critical_checks_in. split;
      intros (r & Hr & Hc & Hb); exists r; repeat split; auto;
      apply (H r Hc); exact Hr. }
  assert (Hall : all (critical_checks rs) = all (critical_checks rs')).
  { destruct (all (critical_checks rs)) eqn:E1;
      destruct (all (critical_checks rs')) eqn:E2; auto.
    - rewrite all_iff in E1. assert (all (critical_checks rs') = true).
      { apply all_iff. intros b Hb. apply E1, Hin, Hb. }
      congruence.
    - rewrite all_iff in E2. assert (all (critical_checks rs) = true).
      { apply all_iff. intros b Hb. apply E2, Hin, Hb. }
      congruence. }
  assert (Hany : any (critical_checks rs) = any (critical_checks rs')).
  { destruct (any (critical_checks rs)) eqn:E1;
      destruct (any (critical_checks rs')) eqn:E2; auto.
    - rewrite any_iff in E1. apply Hin in E1. apply any_iff in E1. congruence.
    - rewrite any_iff in E2. apply Hin in E2. apply any_iff in E2. congruence. }
  unfold verdict. now rewrite Hall, Hany.
Qed.

Lemma verdict_depends_on_critical_entries_witness :
  verdict [(u "Node.js 安装", true, u "v20.11.0");
           (u "项目目录", false, u "未找到")]
  = verdict [(u "项目目录", false, u "未找到");
             (u "Git 安装", true, u "git version 2.34.1");
             (u "Node.js 安装", true, u "v20.11.0");
             (u "项目目录", false, u "未找到")].
Proof.
  apply (verdict_depends_on_critical_entries
           [(u "Node.js 安装", true, u "v20.11.0");
            (u "项目目录", false, u "未找到")]
           [(u "项目目录", false, u "未找到");
            (u "Git 安装", true, u "git version 2.34.1");
            (u "Node.js 安装", true, u "v20.11.0");
            (u "项目目录", false, u "未找到")]).
  intros r Hc. cbn [In]. split.
  - intros [<- | [<- | []]]; auto.
  - intros [<- | [<- | [<- | [<- | []]]]]; auto.
    vm_compute in Hc. discriminate.
Defined.

(** ** The system-information group *)

(** X15: when every line can be written, the system-information group
    records the interpreter version, the platform and the architecture as
    passed, then the GPU check, which passes exactly when [COLAB_GPU] is in
    the environment, and then at most one disk-space result; its only call
    of [subprocess.run] is [df -h /]. *)
Theorem system_info_checks (w : world) (s : state) :
  quiet w ->
  fst (check_system_info w s) = Ok tt /\
  (exists disk,
     results (snd (check_system_info w s))
     = results s
       ++ [(u "Python 版本", true, python_version w);
           (u "操作系统", true, platform_platform w);
           (u "系统架构", true, platform_architecture w);
           (u "GPU 支持", environ w (u "COLAB_GPU"),
            if environ w (u "COLAB_GPU") then u "可用" else u "不可用")]
       ++ disk /\
     (disk = [] \/ exists b m, disk = [(u "磁盘空间", b, m)])) /\
  invoked (snd (check_system_info w s)) = invoked s ++ [(cwd s, df_command)] /\
  cwd (snd (check_system_info w s)) = cwd s.
Proof.
  intros Hq.
  destruct (performs_check_system_info w Hq (cwd s) s eq_refl)
    as (s' & H & Hr & Hi & Hc).
  rewrite H. cbn [fst snd]. rewrite Hr, Hi, Hc.
  repeat split; auto.
  exists (disk_results w (cwd s)). split; [reflexivity|].
  apply disk_results_shape.
Qed.

Lemma system_info_checks_witness :
  let w := colab_ready in
  let s := init w in
  fst (check_system_info w s) = Ok tt /\
  (exists disk,
     results (snd (check_system_info w s))
     = results s
       ++ [(u "Python 版本", true, python_version w);
           (u "操作系统", true, platform_platform w);
           (u "系统架构", true, platform_architecture w);
           (u "GPU 支持", environ w (u "COLAB_GPU"),
            if environ w (u "COLAB_GPU") then u "可用" else u "不可用")]
       ++ disk /\
     (disk = [] \/ exists b m, disk = [(u "磁盘空间", b, m)])) /\
  invoked (snd (check_system_info w s)) = invoked s ++ [(cwd s, df_command)] /\
  cwd (snd (check_system_info w s)) = cwd s.
Proof.
  apply (system_info_checks colab_ready (init colab_ready)).
  intros n. reflexivity.
Defined.
